(** * FontSnip: the numeric matching pipeline

    A shallow embedding of [src/matching/feature_extractor.py] and
    [src/matching/font_matcher.py], and the properties of the feature
    vector, of the target-vector aggregation and of the cosine-similarity
    ranking.

    Conventions of the embedding.
    - NumPy floating-point scalars are idealised as real numbers ([R]):
      rounding, overflow and NaN are outside that model. Where a property
      turns on the exact value of a float, as the equalities of the cosine
      similarity do, the code is embedded a second time, in module [Ieee],
      over IEEE 754 binary32 and binary64 numbers with their rounding.
    - A 1-D NumPy array is a [list R]; a 2-D image is its [shape] and its
      list of rows.
    - A Python [dict] is an association list in insertion order, which is
      the iteration order of [dict.items()] and [dict.values()].
    - A Python call that may raise returns a [result].
    - [print] calls are not modelled. *)

(** The configuration manager ([src/config.py]), the image processor
    ([src/processing/image_processor.py]), the font finder
    ([src/utils/font_utils.py]) and the database builder
    ([scripts/build_font_database.py]) are embedded as well. What they
    get from OpenCV, EasyOCR, Pillow, [pathlib] and the file system is
    taken as given, as records of functions. *)

From Stdlib Require Import String.
From Stdlib Require Import Reals Lra Lia ZArith Bool List.
From Stdlib Require Import Sorted Permutation.
From Stdlib Require Import SpecFloat.
Import ListNotations.
Open Scope R_scope.

(** ** Python results *)

Inductive exn : Type :=
| FileNotFoundError
| UnpicklingError
| EOFError
| ImportError
| IndexError
| AttributeError
| ValueError
| MemoryError
| StopIteration
| PyException (cause : exn).   (* raise Exception(f"... {e}") *)

Inductive result (A : Type) : Type :=
| Ok (a : A)
| Raise (e : exn).
Arguments Ok {A} a.
Arguments Raise {A} e.

Definition rbind {A B} (r : result A) (k : A -> result B) : result B :=
  match r with
  | Ok a => k a
  | Raise e => Raise e
  end.

(** [x == y] on scalars. *)
Definition Reqb (x y : R) : bool :=
  if Req_dec_T x y then true else false.

(** [x < y] on scalars. *)
Definition Rltb (x y : R) : bool :=
  if Rlt_dec x y then true else false.

(** A Python [int] used as a scalar. *)
Definition of_nat (n : nat) : R := IZR (Z.of_nat n).

(** ** Python dictionaries

    Insertion-ordered, as [dict] is since Python 3.7: assigning to a key
    that is present keeps its position, a new key goes to the end. *)

Definition dict (V : Type) : Type := list (string * V).

Fixpoint dict_set {V : Type} (k : string) (v : V) (d : dict V) : dict V :=
  match d with
  | [] => [(k, v)]
  | (k', v') :: d' =>
      if String.eqb k' k then (k', v) :: d'
      else (k', v') :: dict_set k v d'
  end.

Definition keys {V : Type} (d : dict V) : list string := map fst d.
Definition values {V : Type} (d : dict V) : list V := map snd d.

(** [seq[:stop]] on a list, with Python's reading of a negative [stop]. *)
Definition slice_to {A : Type} (stop : Z) (l : list A) : list A :=
  if (stop <? 0)%Z then firstn (Z.to_nat (Z.of_nat (length l) + stop)) l
  else firstn (Z.to_nat stop) l.

(** ** Images: 2-D integer arrays *)

Inductive dtype : Type :=
| uint8
| int32.          (* stands for any wider integer dtype *)

Record image : Type := {
  img_dtype : dtype;
  shape : nat * nat;            (* (rows, columns): (height, width) *)
  rows : list (list Z)
}.

(** What NumPy guarantees of a 2-D array: [shape] describes [rows], and a
    [uint8] array holds bytes. *)
Definition is_byte (p : Z) : bool := ((0 <=? p) && (p <? 256))%Z.

Definition well_formed (img : image) : bool :=
  Nat.eqb (length (rows img)) (fst (shape img))
  && forallb (fun r => Nat.eqb (length r) (snd (shape img))) (rows img)
  && match img_dtype img with
     | uint8 => forallb (forallb is_byte) (rows img)
     | int32 => true
     end.

(** The BinaryImage of the data model: every pixel is 0 or 255. *)
Definition is_binary (img : image) : bool :=
  forallb (forallb (fun p => (p =? 0)%Z || (p =? 255)%Z)) (rows img).

(** ** NumPy primitives on 1-D arrays *)

Module Np.

Definition ndarray := list R.

Definition zeros (n : nat) : ndarray := repeat 0 n.

(** Sum of the pairwise products of two arrays of the same length. *)
Fixpoint inner (a b : ndarray) : R :=
  match a, b with
  | x :: a', y :: b' => x * y + inner a' b'
  | _, _ => 0
  end.

(** [np.dot] on 1-D arrays: the shapes must be aligned. *)
Definition dot (a b : ndarray) : result R :=
  if Nat.eqb (length a) (length b) then Ok (inner a b)
  else Raise ValueError.

(** [np.linalg.norm] on a 1-D array: [sqrt(dot(x, x))]. *)
Definition norm (a : ndarray) : R := sqrt (inner a a).

(** Componentwise sum of two rows of the same length. *)
Fixpoint add (a b : ndarray) : ndarray :=
  match a, b with
  | x :: a', y :: b' => (x + y) :: add a' b'
  | _, _ => []
  end.

(** [np.mean(np.array(rows), axis=0)] for a non-empty list of rows of one
    common length: the rows are added up and divided by their number. *)
Definition sum_axis0 (d : nat) (rows : list ndarray) : ndarray :=
  fold_left add rows (zeros d).

Definition mean_axis0 (rows : list ndarray) : ndarray :=
  match rows with
  | [] => []
  | r0 :: _ =>
      map (fun s => s / IZR (Z.of_nat (length rows)))
          (sum_axis0 (length r0) rows)
  end.

(** [a.size] of a 2-D array. *)
Definition size (img : image) : nat := fst (shape img) * snd (shape img).

(** [a.astype(np.uint8)] from a wider integer dtype keeps the low byte. *)
Definition astype_uint8 (img : image) : image :=
  {| img_dtype := uint8;
     shape := shape img;
     rows := map (map (fun p => (p mod 256)%Z)) (rows img) |}.

(** [np.count_nonzero] *)
Fixpoint count_nonzero_row (r : list Z) : Z :=
  match r with
  | [] => 0
  | p :: r' => ((if (p =? 0)%Z then 0 else 1) + count_nonzero_row r')%Z
  end.

Fixpoint count_nonzero_rows (rs : list (list Z)) : Z :=
  match rs with
  | [] => 0
  | r :: rs' => (count_nonzero_row r + count_nonzero_rows rs')%Z
  end.

Definition count_nonzero (img : image) : Z := count_nonzero_rows (rows img).

End Np.

(** ** OpenCV primitives *)

Module Cv2.

(** Raw spatial moments of a grey-level image,
    [m_pq = sum over (x, y) of x^p * y^q * I(x, y)],
    with [x] the column and [y] the row of a pixel. *)
Fixpoint sum_row (wt : Z -> Z) (x : Z) (r : list Z) : Z :=
  match r with
  | [] => 0
  | p :: r' => (wt x * p + sum_row wt (x + 1) r')%Z
  end.

Fixpoint sum_rows (wt : Z -> Z -> Z) (y : Z) (rs : list (list Z)) : Z :=
  match rs with
  | [] => 0
  | r :: rs' => (sum_row (wt y) 0 r + sum_rows wt (y + 1) rs')%Z
  end.

Record Moments : Type := { m00 : Z; m10 : Z; m01 : Z }.

Definition moments (img : image) : Moments :=
  {| m00 := sum_rows (fun _ _ => 1%Z) 0 (rows img);
     m10 := sum_rows (fun _ x => x) 0 (rows img);
     m01 := sum_rows (fun y _ => y) 0 (rows img) |}.

(** A row of the hierarchy array: [next, previous, first_child, parent]. *)
Definition hierarchy_row : Type := (Z * Z * Z * Z)%type.

Definition parent (h : hierarchy_row) : Z := snd h.

(** The contour tracing of OpenCV is taken as given: [findContours]
    with [RETR_CCOMP] and [CHAIN_APPROX_SIMPLE] returns the contours and
    [hierarchy[0]] ([None] when there is no contour), [arcLength] the
    closed arc length of a contour and [contourArea] its area. *)
Record Contours : Type := {
  contour : Type;
  findContours : image -> list contour * option (list hierarchy_row);
  arcLength : contour -> R;
  contourArea : contour -> R
}.

End Cv2.

(** ** src/matching/feature_extractor.py *)

Definition FEATURE_VECTOR_SIZE : nat := 7.

Definition extract_features (cv : Cv2.Contours) (char_image : option image)
  : Np.ndarray :=
  match char_image with
  | None => Np.zeros FEATURE_VECTOR_SIZE
  | Some char_image =>
    if Nat.eqb (Np.size char_image) 0 then Np.zeros FEATURE_VECTOR_SIZE
    else
    let char_image :=
      match img_dtype char_image with
      | uint8 => char_image
      | _ => Np.astype_uint8 char_image
      end in
    let '(h, w) := shape char_image in
    if Nat.eqb h 0 || Nat.eqb w 0 || (Np.count_nonzero char_image =? 0)%Z
    then Np.zeros FEATURE_VECTOR_SIZE
    else
    (* 1. aspect ratio *)
    let aspect_ratio := of_nat w / of_nat h in
    (* 2. pixel density *)
    let total_pixels := (h * w)%nat in
    let white_pixels := Np.count_nonzero char_image in
    let pixel_density := IZR white_pixels / of_nat total_pixels in
    (* 3. centroid location *)
    let moments := Cv2.moments char_image in
    let '(norm_centroid_x, norm_centroid_y) :=
      if (Cv2.m00 moments =? 0)%Z then (0.5, 0.5)
      else
        let centroid_x := IZR (Cv2.m10 moments) / IZR (Cv2.m00 moments) in
        let centroid_y := IZR (Cv2.m01 moments) / IZR (Cv2.m00 moments) in
        (centroid_x / of_nat w, centroid_y / of_nat h) in
    (* 4. contour analysis *)
    let '(contours, hierarchy) := Cv2.findContours cv char_image in
    let '(num_holes, total_perimeter, total_area) :=
      match hierarchy with
      | Some hierarchy0 =>
          (length (filter (fun hr => negb (Cv2.parent hr =? -1)%Z) hierarchy0),
           fold_left (fun acc c => acc + Cv2.arcLength cv c) contours 0,
           fold_left (fun acc c => acc + Cv2.contourArea cv c) contours 0)
      | None => (O, 0, 0)
      end in
    let norm_total_perimeter :=
      if Nat.ltb 0 (h + w) then total_perimeter / of_nat (h + w) else 0 in
    let norm_total_area :=
      if Nat.ltb 0 total_pixels then total_area / of_nat total_pixels else 0 in
    (* 5. assemble the feature vector *)
    [ aspect_ratio; pixel_density; norm_centroid_x; norm_centroid_y;
      of_nat num_holes; norm_total_perimeter; norm_total_area ]
  end.

(** ** src/matching/font_matcher.py *)

(** What [pickle.load] can give back: a mapping from font names to
    sequences of numbers, or an object of another kind. *)
Inductive pickled : Type :=
| PyDict (items : dict (list R))
| PyOther.

(** A file of the file system, seen through [pickle.load]. *)
Inductive file : Type :=
| Unpicklable (e : exn)        (* pickle.load raises e *)
| Pickle (data : pickled).

(** [None] where [os.path.exists] is false. *)
Definition filesystem : Type := string -> option file.

Record FontMatcher : Type := {
  db_path : string;
  font_database : dict Np.ndarray
}.

(** Methods read and may write the object they are called on. *)
Definition method (A : Type) : Type := FontMatcher -> result A * FontMatcher.

Definition ret {A} (a : A) : method A := fun self => (Ok a, self).

Definition bind {A B} (m : method A) (k : A -> method B) : method B :=
  fun self =>
    match m self with
    | (Ok a, self') => k a self'
    | (Raise e, self') => (Raise e, self')
    end.

Definition attr {A} (field : FontMatcher -> A) : method A :=
  fun self => (Ok (field self), self).

Definition lift {A} (r : result A) : method A := fun self => (r, self).

Notation "x <- m ;; k" := (bind m (fun x => k))
  (at level 61, m at next level, right associativity).

Definition returned {A} (out : result A * FontMatcher) : result A := fst out.

(** The exceptions of the [except] clause of [_load_database]. *)
Definition caught (e : exn) : bool :=
  match e with
  | UnpicklingError | EOFError | ImportError | IndexError => true
  | _ => false
  end.

(** [{name: np.array(features, dtype=np.float32)
      for name, features in data.items()}] *)
Definition dict_comprehension (items : dict (list R)) : dict Np.ndarray :=
  fold_left (fun d nf => dict_set (fst nf) (snd nf) d) items [].

Definition _load_database (fs : filesystem) (path : string)
  : result (dict Np.ndarray) :=
  match fs path with
  | None => Raise FileNotFoundError
  | Some (Unpicklable e) =>
      if caught e then Raise (PyException e) else Raise e
  | Some (Pickle PyOther) => Raise AttributeError    (* data.items() *)
  | Some (Pickle (PyDict items)) => Ok (dict_comprehension items)
  end.

(** [FontMatcher.__init__] *)
Definition __init__ (fs : filesystem) (path : string) : result FontMatcher :=
  rbind (_load_database fs path) (fun db =>
  Ok {| db_path := path; font_database := db |}).

Definition _calculate_target_vector (character_features : list Np.ndarray)
  : option Np.ndarray :=
  match character_features with
  | [] => None
  | first :: _ =>
      let first_vector_len := length first in
      let same vec := Nat.eqb (length vec) first_vector_len in
      if forallb same character_features
      then Some (Np.mean_axis0 character_features)
      else
        let character_features := filter same character_features in
        match character_features with
        | [] => None
        | _ => Some (Np.mean_axis0 character_features)
        end
  end.

Definition _cosine_similarity (vec1 vec2 : Np.ndarray) : result R :=
  rbind (Np.dot vec1 vec2) (fun dot_product =>
  let norm_vec1 := Np.norm vec1 in
  let norm_vec2 := Np.norm vec2 in
  if Reqb norm_vec1 0 || Reqb norm_vec2 0 then Ok 0
  else Ok (dot_product / (norm_vec1 * norm_vec2))).

(** The loop that fills [scores]. *)
Fixpoint score_loop (target_vector : Np.ndarray) (items : dict Np.ndarray)
  (scores : list (string * R)) : result (list (string * R)) :=
  match items with
  | [] => Ok scores
  | (font_name, db_vector) :: items' =>
      rbind (_cosine_similarity target_vector db_vector) (fun similarity =>
      score_loop target_vector items' (scores ++ [(font_name, similarity)]))
  end.

(** [scores.sort(key=lambda item: item[1], reverse=True)]: Python's sort is
    stable, also with [reverse=True], so an item goes in front of the first
    one whose score is not above its own. *)
Fixpoint insert_by_score (item : string * R) (sorted : list (string * R))
  : list (string * R) :=
  match sorted with
  | [] => [item]
  | item' :: sorted' =>
      if Rltb (snd item) (snd item') then item' :: insert_by_score item sorted'
      else item :: sorted
  end.

Definition sort_by_score_reverse (scores : list (string * R))
  : list (string * R) :=
  fold_right insert_by_score [] scores.

Definition find_best_matches (character_features : list Np.ndarray)
  (top_n : Z) : method (list (string * R)) :=
  db <- attr font_database ;;
  match db with
  | [] => ret []
  | _ =>
    match _calculate_target_vector character_features with
    | None => ret []
    | Some target_vector =>
      db <- attr font_database ;;
      match values db with
      | [] => lift (Raise StopIteration)    (* next(iter(...)) of no value *)
      | sample_db_vector :: _ =>
        if negb (Nat.eqb (length target_vector) (length sample_db_vector))
        then ret []
        else
          db <- attr font_database ;;
          scores <- lift (score_loop target_vector db []) ;;
          ret (slice_to top_n (sort_by_score_reverse scores))
      end
    end
  end.

(** ** The cosine similarity in floating point

    [_cosine_similarity] once more, on arrays of dtype [float32] or
    [float64] and in the arithmetic of IEEE 754 with rounding to the
    nearest, ties to even, which is what NumPy computes. A float is a
    [spec_float]: a signed zero, a signed infinity, NaN, or a sign, a
    mantissa and an exponent. *)

Module Ieee.

Inductive floating : Type := float32 | float64.

(** The bits of the mantissa, the implicit one included. *)
Definition prec (t : floating) : Z :=
  match t with float32 => 24%Z | float64 => 53%Z end.

(** The exponent of the infinities. *)
Definition emax (t : floating) : Z :=
  match t with float32 => 128%Z | float64 => 1024%Z end.

(** Arrays and scalars of NumPy carry their dtype. *)
Record ndarray : Type := { dtype : floating; items : list spec_float }.

Record scalar : Type := { kind : floating; value : spec_float }.

(** The float of type [t] nearest to [m * 2^e]. *)
Definition float (t : floating) (m e : Z) : spec_float :=
  binary_normalize (prec t) (emax t) m e false.

(** [np.array([m1 * 2**e1, ...], dtype=t)] *)
Definition array (t : floating) (values : list (Z * Z)) : ndarray :=
  {| dtype := t; items := map (fun v => float t (fst v) (snd v)) values |}.

(** The type in which NumPy computes with operands of two types. *)
Definition result_type (t1 t2 : floating) : floating :=
  match t1, t2 with
  | float32, float32 => float32
  | _, _ => float64
  end.

(** Conversion to a type that is as wide or wider: the number is kept. *)
Definition astype (from to : floating) (x : spec_float) : spec_float :=
  match from, to, x with
  | float32, float64, S754_finite s m e =>
      binary_round (prec float64) (emax float64) s m e
  | _, _, _ => x
  end.

Definition mul (x y : scalar) : scalar :=
  let t := result_type (kind x) (kind y) in
  {| kind := t;
     value := SFmul (prec t) (emax t) (astype (kind x) t (value x))
                                      (astype (kind y) t (value y)) |}.

Definition div (x y : scalar) : scalar :=
  let t := result_type (kind x) (kind y) in
  {| kind := t;
     value := SFdiv (prec t) (emax t) (astype (kind x) t (value x))
                                      (astype (kind y) t (value y)) |}.

(** The products of the components, added up in the order of the index,
    each product and each sum rounded. A BLAS may add the products in
    another order or fuse a product with a sum; the properties below do
    not turn on it: the sums of the examples are exact, and the symmetry
    rests on that of the multiplication. *)
Fixpoint inner_from (t : floating) (acc : spec_float)
  (a b : list spec_float) : spec_float :=
  match a, b with
  | x :: a', y :: b' =>
      inner_from t (SFadd (prec t) (emax t) acc (SFmul (prec t) (emax t) x y))
                 a' b'
  | _, _ => acc
  end.

Definition inner (t : floating) (a b : list spec_float) : spec_float :=
  inner_from t (S754_zero false) a b.

(** [np.dot] on 1-D arrays: the shapes must be aligned. *)
Definition dot (a b : ndarray) : result scalar :=
  if Nat.eqb (length (items a)) (length (items b)) then
    let t := result_type (dtype a) (dtype b) in
    Ok {| kind := t;
          value := inner t (map (astype (dtype a) t) (items a))
                           (map (astype (dtype b) t) (items b)) |}
  else Raise ValueError.

(** [np.linalg.norm] on a 1-D array: [sqrt(x.dot(x))], in the type of
    the array. *)
Definition norm (a : ndarray) : scalar :=
  let t := dtype a in
  {| kind := t;
     value := SFsqrt (prec t) (emax t) (inner t (items a) (items a)) |}.

(** [x == 0]: true of both zeros, false of NaN. *)
Definition eq_zero (x : scalar) : bool := SFeqb (value x) (S754_zero false).

(** [float(x)]: a Python float is a binary64 number. *)
Definition to_float (x : scalar) : spec_float :=
  astype (kind x) float64 (value x).

Definition _cosine_similarity (vec1 vec2 : ndarray) : result spec_float :=
  rbind (dot vec1 vec2) (fun dot_product =>
  let norm_vec1 := norm vec1 in
  let norm_vec2 := norm vec2 in
  if eq_zero norm_vec1 || eq_zero norm_vec2 then Ok (S754_zero false)
  else Ok (to_float (div dot_product (mul norm_vec1 norm_vec2)))).

End Ieee.

(** ** src/config.py *)

(** [d.get(k)]: the value of the key, if the key is there. *)
Fixpoint dict_get {V : Type} (k : string) (d : dict V) : option V :=
  match d with
  | [] => None
  | (k', v) :: d' => if String.eqb k' k then Some v else dict_get k d'
  end.

(** [d.update(other)] for a dictionary [other]. *)
Definition dict_update {V : Type} (d other : dict V) : dict V :=
  fold_left (fun acc kv => dict_set (fst kv) (snd kv) acc) other d.

(** The values of the settings are JSON values; [JNull] is Python's
    [None]. *)
#[warnings="-register-all"]
Inductive json : Type :=
| JNull
| JBool (b : bool)
| JInt (n : Z)
| JNumber (x : R)
| JStr (s : string)
| JArray (elems : list json)
| JObject (members : dict json).

(** What [json.load] gives for the configuration file, as far as
    [load_config] is modelled: an object, or a document on which
    [dict.update] raises [TypeError] ([null], a boolean or a number).
    Arrays and strings at the top level are outside the model. *)
Inductive document : Type :=
| Settings (members : dict json)
| NotIterable.

(** The file at [config_path], seen through [json.load]. A file on which
    [json.load] raises another exception than [JSONDecodeError] (bytes
    that are not UTF-8 give [UnicodeDecodeError], a very deep nesting
    gives [RecursionError]) is outside the model: the [except] clause of
    [load_config] lets these through, and the constructor raises. *)
Inductive config_file : Type :=
| NoFile
| Malformed                        (* json.load raises JSONDecodeError *)
| Parsed (doc : document).

(** The configuration file and whether it can be opened for writing.
    The directory is taken to exist or to be creatable: [mkdir] is not
    modelled. *)
Record disk : Type := {
  config_json : config_file;
  writable : bool
}.

Module ConfigManager.

Record t : Type := {
  _defaults : dict json;
  _config : dict json
}.

(** The defaults of [__init__]. *)
Definition defaults : dict json :=
  [ ("hotkey"%string, JStr "<ctrl>+<alt>+s");
    ("ocr_confidence_threshold"%string, JInt 60);
    ("image_upscaling_factor"%string, JInt 2);
    ("top_n_matches"%string, JInt 3);
    ("ocr_languages"%string, JArray [JStr "en"]);
    ("enable_denoising"%string, JBool false) ].

(** An [IOError] on opening the file is caught: the file stays as it
    is. *)
Definition save_config (self : t) (d : disk) : disk :=
  if writable d
  then {| config_json := Parsed (Settings (_config self)); writable := true |}
  else d.

Definition load_config (self : t) (d : disk) : t * disk :=
  match config_json d with
  | Parsed (Settings user_config) =>
      ({| _defaults := _defaults self;
          _config := dict_update (_config self) user_config |}, d)
  | Parsed NotIterable | Malformed => (self, save_config self d)
  | NoFile => (self, save_config self d)
  end.

Definition __init__ (d : disk) : t * disk :=
  load_config {| _defaults := defaults; _config := defaults |} d.

Definition get (self : t) (key : string) (default : json) : json :=
  match dict_get key (_config self) with
  | Some value => value
  | None => default
  end.

Definition set (self : t) (key : string) (value : json) (d : disk)
  : t * disk :=
  let self' := {| _defaults := _defaults self;
                  _config := dict_set key value (_config self) |} in
  (self', save_config self' d).

Definition TOP_N_MATCHES (self : t) : json := get self "top_n_matches" JNull.

Definition OCR_CONFIDENCE_THRESHOLD (self : t) : json :=
  get self "ocr_confidence_threshold" JNull.

End ConfigManager.

(** ** src/processing/image_processor.py *)

(** [x <= y] on scalars. *)
Definition Rleb (x y : R) : bool :=
  if Rle_dec x y then true else false.

Module ImageProcessor.

Definition UPSCALE_FACTOR : nat := 3.
Definition ADAPTIVE_THRESH_BLOCK_SIZE : nat := 15.
Definition ADAPTIVE_THRESH_C : Z := 4.
Definition OCR_CONFIDENCE_THRESHOLD : R := 0.60.
Definition ENABLE_DENOISING : bool := false.

(** The image processing of OpenCV is taken as given: [capture] is a
    3-dimensional colour image with its shape (rows, columns, channels),
    [resize] takes the size as (width, height) and interpolates
    bicubically, [cvtColor] converts BGR to grey, [adaptiveThreshold]
    (Gaussian, inverted binary) takes the maximum value, the block size
    and the constant. *)
Record Imgproc : Type := {
  capture : Type;
  capture_shape : capture -> nat * nat * nat;
  resize : capture -> nat * nat -> capture;
  cvtColor : capture -> image;
  fastNlMeansDenoising : image -> image;
  adaptiveThreshold : image -> Z -> nat -> Z -> image
}.

(** A result of [easyocr]: (bounding box, text, confidence). *)
Definition detection : Type := (list (R * R) * string * R)%type.

(** [self.reader.readtext(image, detail=1, paragraph=False)] *)
Definition Reader : Type := image -> result (list detection).

(** The dictionary made of a result. *)
Record character : Type := {
  bbox : list (R * R);
  text : string;
  confidence : R
}.

(** What [process_image] returns for the image: [np.array([])] or the
    binarized image. *)
Inductive processed : Type :=
| EmptyArray
| Binarized (img : image).

Definition capture_size (cv : Imgproc) (image_np : capture cv) : nat :=
  let '(h, w, c) := capture_shape cv image_np in (h * w * c)%nat.

Definition _preprocess (cv : Imgproc) (image_np : capture cv) : image :=
  let '(h, w, _) := capture_shape cv image_np in
  let upscaled_image :=
    resize cv image_np ((w * UPSCALE_FACTOR)%nat, (h * UPSCALE_FACTOR)%nat) in
  let gray_image := cvtColor cv upscaled_image in
  let gray_image :=
    if ENABLE_DENOISING then fastNlMeansDenoising cv gray_image
    else gray_image in
  adaptiveThreshold cv gray_image 255 ADAPTIVE_THRESH_BLOCK_SIZE
    ADAPTIVE_THRESH_C.

(** Every exception of the model is an [Exception], so the [except]
    clause catches whatever the reader raises. *)
Definition _run_ocr (reader : Reader) (processed_image : image)
  : list detection :=
  match reader processed_image with
  | Raise _ => []
  | Ok results =>
      filter (fun r => Rleb OCR_CONFIDENCE_THRESHOLD (snd r)) results
  end.

Definition process_image (cv : Imgproc) (reader : Reader)
  (image_np : option (capture cv)) : processed * list character :=
  match image_np with
  | None => (EmptyArray, [])
  | Some image_np =>
      if Nat.eqb (capture_size cv image_np) 0 then (EmptyArray, [])
      else
        let preprocessed_image := _preprocess cv image_np in
        let ocr_results := _run_ocr reader preprocessed_image in
        let formatted_results :=
          map (fun r => {| bbox := fst (fst r);
                           text := snd (fst r);
                           confidence := snd r |}) ocr_results in
        (Binarized preprocessed_image, formatted_results)
  end.

End ImageProcessor.

(** ** src/utils/font_utils.py *)

Module FontUtils.

(** A set in the source: the order in which it is gone through is not
    fixed. *)
Definition FONT_EXTENSIONS : list string := [".ttf"%string; ".otf"%string].

(** [pathlib] and the file system are taken as given; a path is written
    as its string. *)
Record FileSystem : Type := {
  joinpath : string -> string -> string;     (* Path(a) / b *)
  path_exists : string -> bool;
  is_dir : string -> bool;
  is_file : string -> bool;
  rglob : string -> string -> list string;   (* dir_path.rglob(pattern) *)
  resolve : string -> string                 (* str(p.resolve()) *)
}.

(** [sys.platform], [os.environ] and [Path.home()]. *)
Record Os : Type := {
  platform : string;
  environ : string -> option string;
  home : string
}.

Definition get_system_font_dirs (fs : FileSystem) (os : Os) : list string :=
  let font_dirs :=
    if String.eqb (platform os) "win32" then
      let system_root :=
        match environ os "SystemRoot" with
        | Some root => root
        | None => "C:/Windows"%string
        end in
      [joinpath fs system_root "Fonts"]
      ++ match environ os "LOCALAPPDATA" with
         | Some local_app_data =>
             if String.eqb local_app_data "" then []
             else [joinpath fs local_app_data "Microsoft/Windows/Fonts"]
         | None => []
         end
    else if String.eqb (platform os) "darwin" then
      [ "/System/Library/Fonts"%string; "/Library/Fonts"%string;
        joinpath fs (home os) "Library/Fonts" ]
    else if String.prefix "linux" (platform os) then
      [ "/usr/share/fonts"%string; "/usr/local/share/fonts"%string;
        joinpath fs (home os) ".fonts";
        joinpath fs (home os) ".local/share/fonts" ]
    else [] in
  filter (fun d => path_exists fs d && is_dir fs d) font_dirs.

(** [str.lower] and [str.upper] on the letters of ASCII. *)
Definition lower_ascii (c : Ascii.ascii) : Ascii.ascii :=
  let n := Ascii.nat_of_ascii c in
  if Nat.leb 65 n && Nat.leb n 90 then Ascii.ascii_of_nat (n + 32) else c.

Definition upper_ascii (c : Ascii.ascii) : Ascii.ascii :=
  let n := Ascii.nat_of_ascii c in
  if Nat.leb 97 n && Nat.leb n 122 then Ascii.ascii_of_nat (n - 32) else c.

Fixpoint map_string (f : Ascii.ascii -> Ascii.ascii) (s : string) : string :=
  match s with
  | EmptyString => EmptyString
  | String c s' => String (f c) (map_string f s')
  end.

Definition patterns (ext : string) : list string :=
  [ ("*" ++ map_string lower_ascii ext)%string;
    ("*" ++ map_string upper_ascii ext)%string ].

(** [found_fonts.add(x)] on a set held as a list without repetition. *)
Definition set_add (x : string) (found : list string) : list string :=
  if existsb (String.eqb x) found then found else found ++ [x].

(** [sorted] on strings: Python compares strings by code points. *)
Fixpoint insert_sorted (x : string) (l : list string) : list string :=
  match l with
  | [] => [x]
  | y :: l' => if String.leb x y then x :: l else y :: insert_sorted x l'
  end.

Definition sorted (l : list string) : list string :=
  fold_right insert_sorted [] l.

(** The files that the loops of [find_font_files] add for one directory,
    in the order of the loops. *)
Definition fonts_below (fs : FileSystem) (extensions : list string)
  (dir_path : string) : list string :=
  if negb (path_exists fs dir_path) then []
  else
    flat_map (fun ext =>
      flat_map (fun pattern =>
        map (resolve fs)
            (filter (is_file fs) (rglob fs dir_path pattern)))
        (patterns ext))
      extensions.

(** The loops, for the extensions taken in the order [extensions]. *)
Definition find_font_files_in (fs : FileSystem) (extensions : list string)
  (search_dirs : list string) : list string :=
  let found_fonts :=
    fold_left (fun found font => set_add font found)
              (flat_map (fonts_below fs extensions) search_dirs) [] in
  sorted found_fonts.

Definition find_font_files (fs : FileSystem) (os : Os)
  (directories : option (list string)) : list string :=
  let search_dirs :=
    match directories with
    | None => get_system_font_dirs fs os
    | Some directories => directories
    end in
  find_font_files_in fs FONT_EXTENSIONS search_dirs.

End FontUtils.

(** ** scripts/build_font_database.py *)

Module Builder.

Definition CHARACTER_SET : string :=
  "abcdefghijklmnopqrstuvwxyzABCDEFGHIJKLMNOPQRSTUVWXYZ0123456789".

Definition FONT_SIZE : nat := 48.

(** [render_character_image] draws with Pillow; what it returns, a 2-D
    array or [None], is taken as given. *)
Definition Renderer : Type := string -> Ascii.ascii -> nat -> option image.

(** [np.sum] of an image. *)
Definition np_sum (img : image) : Z :=
  fold_right (fun r acc => (fold_right Z.add 0 r + acc)%Z) 0%Z (rows img).

(** One turn of the inner loop: the feature vector of the character is
    appended when the character was rendered and is not blank. *)
Definition add_char_features (cv : Cv2.Contours) (render : Renderer)
  (font_path : string) (char_features_list : list Np.ndarray)
  (char : Ascii.ascii) : list Np.ndarray :=
  match render font_path char FONT_SIZE with
  | None => char_features_list
  | Some char_image =>
      if (np_sum char_image =? 0)%Z then char_features_list
      else
        let feature_vector := extract_features cv (Some char_image) in
        char_features_list ++ [feature_vector]
  end.

(** The inner loop over the characters. *)
Definition char_features (cv : Cv2.Contours) (render : Renderer)
  (font_path : string) (chars : list Ascii.ascii)
  (char_features_list : list Np.ndarray) : list Np.ndarray :=
  fold_left (add_char_features cv render font_path) chars char_features_list.

(** The variables of the outer loop. *)
Record progress : Type := {
  db : dict Np.ndarray;
  processed_count : nat;
  skipped_count : nat
}.

(** One turn of the outer loop. *)
Definition process_font (cv : Cv2.Contours) (render : Renderer)
  (st : progress) (font_path : string) : progress :=
  let char_features_list :=
    char_features cv render font_path
      (list_ascii_of_string CHARACTER_SET) [] in
  match char_features_list with
  | [] =>
      {| db := db st;
         processed_count := processed_count st;
         skipped_count := S (skipped_count st) |}
  | _ =>
      let average_feature_vector := Np.mean_axis0 char_features_list in
      {| db := dict_set font_path average_feature_vector (db st);
         processed_count := S (processed_count st);
         skipped_count := skipped_count st |}
  end.

Definition build_loop (cv : Cv2.Contours) (render : Renderer)
  (font_paths : list string) : progress :=
  fold_left (process_font cv render) font_paths
    {| db := []; processed_count := 0; skipped_count := 0 |}.

(** The script ends with [sys.exit(1)] or with the database written. *)
Inductive outcome : Type :=
| SystemExit (code : Z)
| Saved (font_database : dict Np.ndarray).

(** [find_system_fonts] is imported from [src.utils.font_utils], which
    does not define it: the list it would return is a parameter.
    [can_write] tells whether [pickle.dump] to the output file
    succeeds. *)
Definition build_font_database (cv : Cv2.Contours) (render : Renderer)
  (find_system_fonts : list string) (can_write : bool) : outcome :=
  let font_paths := find_system_fonts in
  match font_paths with
  | [] => SystemExit 1
  | _ =>
      let font_database := db (build_loop cv render font_paths) in
      match font_database with
      | [] => SystemExit 1
      | _ => if can_write then Saved font_database else SystemExit 1
      end
  end.

End Builder.

(** ** The specification's reading of the operations *)

(** The [j]-th component of the arithmetic mean of a list of vectors. *)
Definition mean_component (vs : list Np.ndarray) (j : nat) : R :=
  fold_right Rplus 0 (map (fun v => nth j v 0) vs) / of_nat (length vs).



(** [similarity(a,b) = dot(a,b) / (||a|| * ||b||)], and [0] when a norm
    is [0]. *)
Definition similarity (a b : Np.ndarray) : R :=
  if Reqb (Np.norm a) 0 || Reqb (Np.norm b) 0 then 0
  else Np.inner a b / (Np.norm a * Np.norm b).

(** The pair that a database entry gets in the ranking. *)
Definition scored (target : Np.ndarray) (entry : string * Np.ndarray)
  : string * R :=
  (fst entry, similarity target (snd entry)).

(** The vectors of the canonical dimensionality, as the specification of
    [aggregate] reads. *)
Definition canonical (vs : list Np.ndarray) : list Np.ndarray :=
  filter (fun v => Nat.eqb (length v) FEATURE_VECTOR_SIZE) vs.

(** [t] is the componentwise arithmetic mean of the vectors [vs]. *)
Definition is_mean_of (vs : list Np.ndarray) (t : Np.ndarray) : Prop :=
  Forall (fun v => length v = length t) vs /\
  forall j, (j < length t)%nat -> nth j t 0 = mean_component vs j.

(** [aggregate] as specified: Empty exactly when no vector of the
    canonical dimensionality remains, and else the mean of those. *)
Definition aggregate_as_specified (vs : list Np.ndarray) : Prop :=
  (_calculate_target_vector vs = None <-> canonical vs = []) /\
  (canonical vs <> [] ->
   exists t, _calculate_target_vector vs = Some t /\
             is_mean_of (canonical vs) t).

(** The vectors that [_calculate_target_vector] keeps: those of the length
    of the first one. *)
Definition kept (vs : list Np.ndarray) : list Np.ndarray :=
  match vs with
  | [] => []
  | first :: _ => filter (fun v => Nat.eqb (length v) (length first)) vs
  end.


(** A loaded database as specified: every vector has 7 components. *)
Definition valid_database (db : dict Np.ndarray) : Prop :=
  Forall (fun v => length v = FEATURE_VECTOR_SIZE) (values db).

(** ** Further notions used in the properties *)


(** [a] comes before [b] in the order of strings. *)
Definition string_lt (a b : string) : Prop := String.compare a b = Lt.

(** The paths that the loops meet below the directories. *)
Definition font_candidate (fs : FontUtils.FileSystem)
  (extensions search_dirs : list string) (p : string) : Prop :=
  exists dir ext pattern file,
    In dir search_dirs /\ FontUtils.path_exists fs dir = true
    /\ In ext extensions /\ In pattern (FontUtils.patterns ext)
    /\ In file (FontUtils.rglob fs dir pattern)
    /\ FontUtils.is_file fs file = true
    /\ FontUtils.resolve fs file = p.

(** What the outer loop keeps true, [done] being the fonts gone
    through. *)
Definition builder_invariant (cv : Cv2.Contours) (render : Builder.Renderer)
  (st : Builder.progress) (done : list string) : Prop :=
  valid_database (Builder.db st)
  /\ NoDup (keys (Builder.db st))
  /\ (forall p, In p (keys (Builder.db st)) <->
        In p done
        /\ Builder.char_features cv render p
             (list_ascii_of_string Builder.CHARACTER_SET) [] <> [])
  /\ (Builder.processed_count st + Builder.skipped_count st = length done)%nat
  /\ (length (Builder.db st) <= Builder.processed_count st)%nat.

(** ** Test data *)

(** An [h] by [w] [uint8] bitmap, white (255) where [ink row column]. *)
Definition bitmap (h w : nat) (ink : nat -> nat -> bool) : image :=
  {| img_dtype := uint8;
     shape := (h, w);
     rows := map (fun y => map (fun x => if ink y x then 255%Z else 0%Z)
                               (seq 0 w))
                 (seq 0 h) |}.

(** The fixture [image_i] of tests/test_feature_extractor.py: a 20x10 image
    with a vertical bar, [cv2.rectangle(img, (4, 2), (5, 17), 255, -1)]. *)
Definition image_i : image :=
  bitmap 20 10 (fun y x =>
    Nat.leb 2 y && Nat.leb y 17 && Nat.leb 4 x && Nat.leb x 5).

(** A 10x20 image with one white pixel in a corner. *)
Definition image_dot : image :=
  bitmap 10 20 (fun y x => Nat.eqb y 9 && Nat.eqb x 19).

(** The fixture [image_all_black]. *)
Definition image_all_black : image := bitmap 10 10 (fun _ _ => false).

(** An all-black 20x10 image. *)
Definition image_blank_20x10 : image := bitmap 20 10 (fun _ _ => false).

(** A contour tracer that finds nothing. *)
Definition no_contours : Cv2.Contours :=
  {| Cv2.contour := unit;
     Cv2.findContours := fun _ => ([], None);
     Cv2.arcLength := fun _ => 0;
     Cv2.contourArea := fun _ => 0 |}.

(** A matcher over three fonts with 2-component fingerprints. *)
Definition matcher_2d : FontMatcher :=
  {| db_path := "font_features.pkl";
     font_database :=
       [("A.ttf"%string, [1; 0]); ("B.ttf"%string, [0; 1]);
        ("C.ttf"%string, [2; 0])] |}.

(** [np.array([1.0, 1.0, 1.0])], and the same as [float32]. *)
Definition ones_float64 : Ieee.ndarray :=
  Ieee.array Ieee.float64 [(1, 0); (1, 0); (1, 0)]%Z.

Definition ones_float32 : Ieee.ndarray :=
  Ieee.array Ieee.float32 [(1, 0); (1, 0); (1, 0)]%Z.



(** [np.array([3.0, 4.0])] and [np.zeros(2)]. *)
Definition three_four_float64 : Ieee.ndarray :=
  Ieee.array Ieee.float64 [(3, 0); (4, 0)]%Z.


(** A database file whose vectors have 3 and 2 components. *)
Definition ragged_items : dict (list R) :=
  [("A.ttf"%string, [1; 2; 3]); ("B.ttf"%string, [1; 2])].

Definition ragged_fs : filesystem :=
  fun path =>
    if String.eqb path "font_features.pkl"
    then Some (Pickle (PyDict ragged_items))
    else None.

(** OpenCV image processing that keeps the sizes and blackens the
    image. *)
Definition stub_imgproc : ImageProcessor.Imgproc :=
  {| ImageProcessor.capture := (nat * nat * nat)%type;
     ImageProcessor.capture_shape := fun c => c;
     ImageProcessor.resize := fun c size => (snd size, fst size, snd c);
     ImageProcessor.cvtColor :=
       fun c => bitmap (fst (fst c)) (snd (fst c)) (fun _ _ => false);
     ImageProcessor.fastNlMeansDenoising := fun img => img;
     ImageProcessor.adaptiveThreshold := fun img _ _ _ => img |}.

(** A reader with one detection above the threshold and one below. *)
Definition two_detections : ImageProcessor.Reader :=
  fun _ => Ok [([], "a"%string, 0.9); ([], "b"%string, 0.3)].

(** A file system where every directory exists and holds one file. *)
Definition one_file_per_dir : FontUtils.FileSystem :=
  {| FontUtils.joinpath := fun a b => (a ++ "/" ++ b)%string;
     FontUtils.path_exists := fun _ => true;
     FontUtils.is_dir := fun _ => true;
     FontUtils.is_file := fun _ => true;
     FontUtils.rglob := fun dir _ => [(dir ++ "/font.ttf")%string];
     FontUtils.resolve := fun p => p |}.

(** A renderer that draws the letter a (code 97) only, as [image_dot]. *)
Definition render_a : Builder.Renderer :=
  fun _ char _ =>
    if Ascii.eqb char (Ascii.ascii_of_nat 97) then Some image_dot else None.

(** The database that the builder makes of one font with [render_a]. *)
Definition one_font_database : dict Np.ndarray :=
  [("A.ttf"%string,
    Np.mean_axis0 [extract_features no_contours (Some image_dot)])].

(** ** Facts on the NumPy primitives *)

Lemma inner_comm (a b : Np.ndarray) : Np.inner a b = Np.inner b a.
Proof.
  revert b; induction a as [|x a IH]; intros [|y b]; simpl; trivial.
  rewrite IH; ring.
Qed.

Lemma inner_self_nonneg (a : Np.ndarray) : 0 <= Np.inner a a.
Proof.
  induction a as [|x a IH]; simpl; [lra | nra].
Qed.

Lemma inner_self_zero (a : Np.ndarray) :
  Np.inner a a = 0 <-> Forall (fun x => x = 0) a.
Proof.
  induction a as [|x a IH]; simpl.
  - split; [constructor | trivial].
  - pose proof (inner_self_nonneg a) as Hnn.
    split.
    + intros H. assert (x = 0) by nra. subst x.
      constructor; [reflexivity | apply IH; lra].
    + intros H. inversion H as [|? ? Hx Ha]; subst.
      apply IH in Ha. rewrite Ha. ring.
Qed.

Lemma inner_zero_l (a b : Np.ndarray) :
  Forall (fun x => x = 0) a -> Np.inner a b = 0.
Proof.
  intros H; revert b; induction H as [|x a Hx _ IH]; intros [|y b];
    simpl; trivial.
  rewrite IH, Hx; ring.
Qed.

Lemma norm_nonneg (a : Np.ndarray) : 0 <= Np.norm a.
Proof. apply sqrt_pos. Qed.

Lemma norm_zero (a : Np.ndarray) :
  Np.norm a = 0 <-> Forall (fun x => x = 0) a.
Proof.
  unfold Np.norm. rewrite <- inner_self_zero. split.
  - intros H. apply sqrt_eq_0; [apply inner_self_nonneg | exact H].
  - intros H. rewrite H. apply sqrt_0.
Qed.

Lemma norm_sqr (a : Np.ndarray) : Np.norm a * Np.norm a = Np.inner a a.
Proof. apply sqrt_sqrt, inner_self_nonneg. Qed.

Lemma zeros_Forall (a : Np.ndarray) :
  Forall (fun x => x = 0) a <-> a = Np.zeros (length a).
Proof.
  unfold Np.zeros. induction a as [|x a IH]; simpl.
  - split; [reflexivity | constructor].
  - split.
    + intros H. inversion H as [|? ? Hx Ha]; subst.
      apply IH in Ha. now rewrite <- Ha.
    + intros H. injection H as Hx Ha.
      constructor; [exact Hx | now apply IH].
Qed.

Lemma Reqb_true (x y : R) : Reqb x y = true <-> x = y.
Proof. unfold Reqb. destruct (Req_dec_T x y); split; congruence. Qed.

Lemma Reqb_false (x y : R) : Reqb x y = false <-> x <> y.
Proof. unfold Reqb. destruct (Req_dec_T x y); split; congruence. Qed.

Lemma Rltb_true (x y : R) : Rltb x y = true <-> x < y.
Proof. unfold Rltb. destruct (Rlt_dec x y); split; congruence. Qed.

Lemma Rltb_false (x y : R) : Rltb x y = false <-> y <= x.
Proof.
  unfold Rltb. destruct (Rlt_dec x y); split; intros; try congruence; lra.
Qed.

Lemma dot_aligned (a b : Np.ndarray) :
  length a = length b -> Np.dot a b = Ok (Np.inner a b).
Proof. intros H. unfold Np.dot. now rewrite H, Nat.eqb_refl. Qed.

Lemma dot_comm (a b : Np.ndarray) : Np.dot a b = Np.dot b a.
Proof.
  unfold Np.dot. rewrite (Nat.eqb_sym (length b)), inner_comm. reflexivity.
Qed.

(** ** The cosine similarity *)

Lemma norm_pair (x y n : R) : 0 <= n -> x * x + y * y = n * n ->
  Np.norm [x; y] = n.
Proof.
  intros Hn H. unfold Np.norm. simpl.
  replace (x * x + (y * y + 0)) with (n * n) by lra.
  now apply sqrt_square.
Qed.

Example norm_3_4 : Np.norm [3; 4] = 5.
Proof. apply norm_pair; lra. Qed.

Example norm_1_0 : Np.norm [1; 0] = 1.
Proof. apply norm_pair; lra. Qed.

Example norm_0_1 : Np.norm [0; 1] = 1.
Proof. apply norm_pair; lra. Qed.

Example norm_2_0 : Np.norm [2; 0] = 2.
Proof. apply norm_pair; lra. Qed.

Example norm_0_0 : Np.norm [0; 0] = 0.
Proof. apply norm_pair; lra. Qed.

Lemma cosine_similarity_degenerate (a b : Np.ndarray) :
  length a = length b -> Np.norm a = 0 \/ Np.norm b = 0 ->
  _cosine_similarity a b = Ok 0.
Proof.
  intros Hlen Hz. unfold _cosine_similarity.
  rewrite (dot_aligned _ _ Hlen). simpl.
  destruct Hz as [Hz | Hz]; rewrite Hz.
  - now rewrite (proj2 (Reqb_true 0 0) eq_refl).
  - rewrite (proj2 (Reqb_true 0 0) eq_refl). now rewrite orb_true_r.
Qed.

Lemma cosine_similarity_regular (a b : Np.ndarray) :
  length a = length b -> Np.norm a <> 0 -> Np.norm b <> 0 ->
  _cosine_similarity a b = Ok (Np.inner a b / (Np.norm a * Np.norm b)).
Proof.
  intros Hlen Ha Hb. unfold _cosine_similarity.
  rewrite (dot_aligned _ _ Hlen). simpl.
  apply Reqb_false in Ha, Hb. now rewrite Ha, Hb.
Qed.

(** C1. For vectors [a] and [b] of one dimension, [_cosine_similarity]
    returns (it does not raise) [dot(a,b) / (||a|| * ||b||)], a quotient
    whose divisor is not zero, when both norms are non-zero, and exactly
    [0] as soon as one of the norms is zero; so a vector of norm zero has
    similarity [0] to every vector, itself included. *)
Theorem cosine_similarity_formula (a b : Np.ndarray) :
  length a = length b ->
  (Np.norm a <> 0 -> Np.norm b <> 0 ->
     Np.norm a * Np.norm b <> 0 /\
     _cosine_similarity a b = Ok (Np.inner a b / (Np.norm a * Np.norm b)))
  /\ (Np.norm a = 0 \/ Np.norm b = 0 -> _cosine_similarity a b = Ok 0)
  /\ (Np.norm a = 0 -> _cosine_similarity a a = Ok 0).
Proof.
  intros Hlen. split; [|split].
  - intros Ha Hb. split.
    + now apply Rmult_integral_contrapositive_currified.
    + now apply cosine_similarity_regular.
  - now apply cosine_similarity_degenerate.
  - intros Ha. apply cosine_similarity_degenerate; [reflexivity | now left].
Qed.

Lemma cosine_similarity_formula_witness :
  _cosine_similarity [3; 4] [1; 0] = Ok (3 / 5)
  /\ _cosine_similarity [0; 0] [1; 0] = Ok 0
  /\ _cosine_similarity [0; 0] [0; 0] = Ok 0.
Proof.
  destruct (cosine_similarity_formula [3; 4] [1; 0] eq_refl) as (Hreg & _).
  destruct (cosine_similarity_formula [0; 0] [1; 0] eq_refl)
    as (_ & Hdeg & Hself).
  split; [| split].
  - destruct Hreg as [_ Hsim].
    + rewrite norm_3_4. lra.
    + rewrite norm_1_0. lra.
    + rewrite Hsim, norm_3_4, norm_1_0. simpl. f_equal. lra.
  - apply Hdeg. left. exact norm_0_0.
  - apply Hself. exact norm_0_0.
Defined.

(** ** Facts on the floating-point arithmetic *)













(** A vector and its [float32] copy: the norm of the copy is rounded to
    binary32, and the similarity is 1.0000000179482318. In binary32
    itself [[1, 1, 1]] has similarity [1.0] to itself, and in binary64
    so has [[3, 4]], whose norm is exact. *)
Example cosine_similarity_float32_fingerprint :
  Ieee._cosine_similarity ones_float64 ones_float32
  = Ok (Ieee.float Ieee.float64 4503599708202146 (-52))
  /\ Ieee._cosine_similarity ones_float32 ones_float32
     = Ok (Ieee.float Ieee.float64 1 0)
  /\ Ieee._cosine_similarity three_four_float64 three_four_float64
     = Ok (Ieee.float Ieee.float64 1 0).
Proof. vm_compute. repeat split. Qed.

(** ** The aggregation of the feature vectors *)

Lemma add_length (a b : Np.ndarray) :
  length a = length b -> length (Np.add a b) = length a.
Proof.
  revert b; induction a as [|x a IH]; intros [|y b] H; simpl in *;
    try discriminate; trivial.
  f_equal. apply IH. now injection H.
Qed.

Lemma nth_add (a b : Np.ndarray) (j : nat) :
  length a = length b ->
  nth j (Np.add a b) 0 = nth j a 0 + nth j b 0.
Proof.
  revert b j; induction a as [|x a IH]; intros [|y b] j H; simpl in *;
    try discriminate.
  - destruct j; lra.
  - destruct j; [reflexivity | apply IH; now injection H].
Qed.

Lemma nth_zeros (d j : nat) : nth j (Np.zeros d) 0 = 0.
Proof.
  unfold Np.zeros. revert j; induction d as [|d IH]; intros [|j]; simpl;
    trivial.
Qed.

Lemma fold_add (vs : list Np.ndarray) (acc : Np.ndarray) :
  Forall (fun v => length v = length acc) vs ->
  length (fold_left Np.add vs acc) = length acc /\
  forall j, nth j (fold_left Np.add vs acc) 0
            = nth j acc 0 + fold_right Rplus 0 (map (fun v => nth j v 0) vs).
Proof.
  revert acc; induction vs as [|v vs IH]; intros acc H; simpl.
  - split; [reflexivity | intros j; lra].
  - inversion H as [|? ? Hv Hvs]; subst.
    assert (Hlen : length (Np.add acc v) = length acc)
      by (apply add_length; congruence).
    destruct (IH (Np.add acc v)) as [IHl IHn].
    { rewrite Hlen. exact Hvs. }
    split; [congruence |].
    intros j. rewrite IHn, nth_add by congruence. lra.
Qed.

Lemma mean_axis0_is_mean (v : Np.ndarray) (vs : list Np.ndarray) :
  Forall (fun u => length u = length v) vs ->
  is_mean_of (v :: vs) (Np.mean_axis0 (v :: vs)).
Proof.
  intros H.
  assert (Hall : Forall (fun u => length u = length (Np.zeros (length v)))
                        (v :: vs)).
  { unfold Np.zeros. rewrite repeat_length. now constructor. }
  destruct (fold_add (v :: vs) (Np.zeros (length v)) Hall) as [Hl Hn].
  unfold Np.zeros in Hl at 2. rewrite repeat_length in Hl.
  assert (Hm : length (Np.mean_axis0 (v :: vs)) = length v).
  { unfold Np.mean_axis0, Np.sum_axis0. now rewrite length_map. }
  split.
  - rewrite Hm. now constructor.
  - intros j Hj. rewrite Hm in Hj.
    unfold Np.mean_axis0, Np.sum_axis0, mean_component, of_nat.
    set (k := IZR (Z.of_nat (length (v :: vs)))).
    rewrite (nth_indep _ 0 (0 / k)) by (rewrite length_map; lia).
    rewrite (map_nth (fun s => s / k)), Hn, nth_zeros.
    f_equal. lra.
Qed.

Lemma forallb_filter_id {A : Type} (f : A -> bool) (l : list A) :
  forallb f l = true -> filter f l = l.
Proof.
  induction l as [|x l IH]; simpl; trivial.
  intros H. apply andb_prop in H as [Hx Hl].
  rewrite Hx. f_equal. now apply IH.
Qed.

Lemma kept_cons (v : Np.ndarray) (vs : list Np.ndarray) :
  exists vs', kept (v :: vs) = v :: vs' /\
              Forall (fun u => length u = length v) vs'.
Proof.
  unfold kept. simpl. rewrite Nat.eqb_refl.
  eexists; split; [reflexivity |].
  apply Forall_forall. intros u Hu. apply filter_In in Hu as [_ Hu].
  now apply Nat.eqb_eq.
Qed.

Lemma calculate_target_vector_kept (v : Np.ndarray) (vs : list Np.ndarray) :
  _calculate_target_vector (v :: vs) = Some (Np.mean_axis0 (kept (v :: vs))).
Proof.
  unfold _calculate_target_vector, kept.
  match goal with
  | |- context [forallb ?same ?l] => destruct (forallb same l) eqn:Hall
  end.
  - now rewrite (forallb_filter_id _ _ Hall).
  - simpl. rewrite Nat.eqb_refl. reflexivity.
Qed.

(** C3, as the code has it. [_calculate_target_vector] drops the vectors
    whose length differs from the length of the first vector; it returns
    [None] exactly when no vector remains, which is exactly when it was
    given none; and else it returns the componentwise arithmetic mean of
    the vectors that remain. *)
Theorem calculate_target_vector_mean (vs : list Np.ndarray) :
  (_calculate_target_vector vs = None <-> kept vs = [])
  /\ (kept vs = [] <-> vs = [])
  /\ (kept vs <> [] ->
      exists t, _calculate_target_vector vs = Some t /\
                is_mean_of (kept vs) t).
Proof.
  destruct vs as [|v vs].
  - simpl. repeat split; trivial; intros H; now elim H.
  - rewrite calculate_target_vector_kept.
    destruct (kept_cons v vs) as (vs' & Hk & Hlen). rewrite Hk.
    repeat split; try discriminate.
    intros _. eexists; split; [reflexivity |].
    now apply mean_axis0_is_mean.
Qed.

Lemma calculate_target_vector_mean_witness :
  kept [[1; 2; 3]; [4; 5]; [3; 4; 5]] <> [] /\
  exists t, _calculate_target_vector [[1; 2; 3]; [4; 5]; [3; 4; 5]] = Some t /\
            is_mean_of (kept [[1; 2; 3]; [4; 5]; [3; 4; 5]]) t.
Proof.
  assert (H : kept [[1; 2; 3]; [4; 5]; [3; 4; 5]] <> []) by discriminate.
  split; [exact H |].
  exact (proj2 (proj2 (calculate_target_vector_mean _)) H).
Defined.

(** C3, as stated, fails: a single vector of three components is not
    dropped, although no vector of seven components remains. *)
Lemma aggregate_canonical_counterexample :
  ~ aggregate_as_specified [[1; 2; 3]].
Proof.
  intros [Hnone _].
  assert (H : _calculate_target_vector [[1; 2; 3]] = None)
    by (apply Hnone; reflexivity).
  rewrite calculate_target_vector_kept in H. discriminate.
Qed.

(** ** The ranking *)

Lemma cosine_similarity_similarity (a b : Np.ndarray) :
  length a = length b -> _cosine_similarity a b = Ok (similarity a b).
Proof.
  intros H. unfold _cosine_similarity, similarity.
  rewrite (dot_aligned _ _ H). simpl.
  now destruct (Reqb (Np.norm a) 0 || Reqb (Np.norm b) 0).
Qed.

Lemma score_loop_map (target : Np.ndarray) (items : dict Np.ndarray)
  (scores : list (string * R)) :
  Forall (fun v => length v = length target) (values items) ->
  score_loop target items scores = Ok (scores ++ map (scored target) items).
Proof.
  revert scores; induction items as [|[name v] items IH]; intros scores H;
    simpl.
  - now rewrite app_nil_r.
  - inversion H as [|? ? Hv Hitems]; subst. simpl in Hv.
    rewrite cosine_similarity_similarity by congruence. simpl.
    rewrite IH by assumption. now rewrite <- app_assoc.
Qed.

Lemma insert_by_score_perm (item : string * R) (l : list (string * R)) :
  Permutation (insert_by_score item l) (item :: l).
Proof.
  induction l as [|item' l IH]; simpl; trivial.
  destruct (Rltb (snd item) (snd item')); trivial.
  rewrite IH. apply perm_swap.
Qed.

Lemma sort_by_score_reverse_perm (l : list (string * R)) :
  Permutation (sort_by_score_reverse l) l.
Proof.
  induction l as [|item l IH]; simpl; trivial.
  rewrite insert_by_score_perm. now constructor.
Qed.





Lemma slice_to_firstn {A : Type} (n : Z) (l : list A) :
  (0 <= n)%Z -> slice_to n l = firstn (Z.to_nat n) l.
Proof.
  intros H. unfold slice_to.
  destruct (n <? 0)%Z eqn:E; trivial. apply Z.ltb_lt in E. lia.
Qed.

(** [find_best_matches] once the three guards have been passed. *)
Lemma find_best_matches_scores (self : FontMatcher)
  (character_features : list Np.ndarray) (top_n : Z) (t : Np.ndarray) :
  font_database self <> [] ->
  _calculate_target_vector character_features = Some t ->
  Forall (fun v => length v = length t) (values (font_database self)) ->
  find_best_matches character_features top_n self
  = (Ok (slice_to top_n
           (sort_by_score_reverse (map (scored t) (font_database self)))),
     self).
Proof.
  destruct self as [path db]. simpl. intros Hdb Ht Hdim.
  unfold find_best_matches, bind, attr, ret, lift. simpl.
  destruct db as [|[name sample] db]; [now elim Hdb |].
  rewrite Ht. simpl.
  inversion Hdim as [|? ? Hs Hrest]; subst. simpl in Hs.
  rewrite Hs, Nat.eqb_refl. simpl.
  rewrite (cosine_similarity_similarity t sample) by congruence. simpl.
  rewrite (score_loop_map t db) by assumption. reflexivity.
Qed.



(** ** The guards of [find_best_matches] *)

Lemma find_best_matches_no_target (self : FontMatcher) (top_n : Z) :
  find_best_matches [] top_n self = (Ok [], self).
Proof.
  unfold find_best_matches, bind, attr, ret. simpl.
  now destruct (font_database self).
Qed.

(** C4, as the code has it. When the length of the target vector differs
    from the length of the first vector of the database,
    [find_best_matches] raises nothing: it returns the empty list, which is
    also what it returns when there is no target vector, and leaves the
    matcher as it was. *)
Theorem find_best_matches_dimension_mismatch (self : FontMatcher)
  (character_features : list Np.ndarray) (top_n : Z) (t : Np.ndarray)
  (name : string) (sample : Np.ndarray) (rest : dict Np.ndarray) :
  font_database self = (name, sample) :: rest ->
  _calculate_target_vector character_features = Some t ->
  length t <> length sample ->
  find_best_matches character_features top_n self = (Ok [], self)
  /\ find_best_matches [] top_n self = (Ok [], self).
Proof.
  intros Hdb Ht Hlen. split; [| apply find_best_matches_no_target].
  destruct self as [path db]. simpl in Hdb. subst db.
  unfold find_best_matches, bind, attr, ret, lift. simpl.
  rewrite Ht. simpl.
  apply Nat.eqb_neq in Hlen. now rewrite Hlen.
Qed.

Lemma find_best_matches_dimension_mismatch_witness :
  find_best_matches [[1; 2; 3]] 5 matcher_2d = (Ok [], matcher_2d)
  /\ find_best_matches [] 5 matcher_2d = (Ok [], matcher_2d).
Proof.
  apply (find_best_matches_dimension_mismatch matcher_2d [[1; 2; 3]] 5
           (Np.mean_axis0 [[1; 2; 3]]) "A.ttf" [1; 0]
           [("B.ttf"%string, [0; 1]); ("C.ttf"%string, [2; 0])]).
  - reflexivity.
  - reflexivity.
  - simpl. lia.
Defined.

(** C4, as stated, fails: a target of three components against a database
    of two-component vectors raises no error, and the caller gets what it
    gets when there is nothing to match. *)
Lemma dimension_mismatch_counterexample :
  exists t,
    _calculate_target_vector [[1; 2; 3]] = Some t
    /\ Forall (fun v => length t <> length v)
              (values (font_database matcher_2d))
    /\ (forall e,
         returned (find_best_matches [[1; 2; 3]] 5 matcher_2d) <> Raise e)
    /\ returned (find_best_matches [[1; 2; 3]] 5 matcher_2d)
       = returned (find_best_matches [] 5 matcher_2d).
Proof.
  exists (Np.mean_axis0 [[1; 2; 3]]).
  split; [reflexivity |].
  split; [repeat constructor; simpl; lia |].
  split; [intros e; discriminate | reflexivity].
Qed.

(** ** Determinism *)








(** ** Loading the database *)

Lemma dict_set_fresh {V : Type} (k : string) (v : V) (d : dict V) :
  ~ In k (keys d) -> dict_set k v d = d ++ [(k, v)].
Proof.
  induction d as [|[k' v'] d IH]; simpl; trivial.
  intros H. destruct (String.eqb k' k) eqn:E.
  - apply String.eqb_eq in E. tauto.
  - f_equal. apply IH. tauto.
Qed.

Lemma dict_comprehension_from (items acc : dict (list R)) :
  NoDup (keys (acc ++ items)) ->
  fold_left (fun d nf => dict_set (fst nf) (snd nf) d) items acc
  = acc ++ items.
Proof.
  revert acc; induction items as [|[k v] items IH]; intros acc H; simpl.
  - now rewrite app_nil_r.
  - assert (Hk : ~ In k (keys acc)).
    { unfold keys in *. rewrite map_app in H. simpl in H.
      apply NoDup_remove_2 in H. rewrite in_app_iff in H. tauto. }
    rewrite (dict_set_fresh k v acc Hk).
    rewrite IH; rewrite <- app_assoc; [reflexivity | exact H].
Qed.

(** A dictionary has each key once: the comprehension keeps its items and
    their order. *)
Lemma dict_comprehension_id (items : dict (list R)) :
  NoDup (keys items) -> dict_comprehension items = items.
Proof. intros H. now apply (dict_comprehension_from items []). Qed.

(** C5, as the code has it. [_load_database] raises [FileNotFoundError],
    and so does the construction of the matcher, when there is no file at
    the path; it raises a plain [Exception] when unpickling the file raises
    [UnpicklingError], [EOFError], [ImportError] or [IndexError]; and a
    pickled dictionary of numeric sequences is loaded as it is, whatever
    the lengths of its vectors: no dimensionality is checked. *)
Theorem load_database_outcomes (fs : filesystem) (path : string) :
  (fs path = None ->
   _load_database fs path = Raise FileNotFoundError
   /\ __init__ fs path = Raise FileNotFoundError)
  /\ (forall e, fs path = Some (Unpicklable e) -> caught e = true ->
      _load_database fs path = Raise (PyException e))
  /\ (forall items, fs path = Some (Pickle (PyDict items)) ->
      NoDup (keys items) ->
      _load_database fs path = Ok items
      /\ __init__ fs path = Ok {| db_path := path; font_database := items |}).
Proof.
  unfold __init__, _load_database. split; [| split].
  - intros H. now rewrite H.
  - intros e H He. now rewrite H, He.
  - intros items H Hnd. rewrite H, (dict_comprehension_id items Hnd).
    now split.
Qed.

Lemma load_database_outcomes_witness :
  _load_database ragged_fs "missing.pkl" = Raise FileNotFoundError
  /\ _load_database ragged_fs "font_features.pkl" = Ok ragged_items.
Proof.
  split.
  - apply (proj1 (load_database_outcomes ragged_fs "missing.pkl")).
    reflexivity.
  - apply (proj2 (proj2 (load_database_outcomes ragged_fs
                           "font_features.pkl"))).
    + reflexivity.
    + repeat constructor; simpl; intuition discriminate.
Defined.

(** C5, as stated, fails: a file whose vectors have three and two
    components is loaded without error, and the database it gives is not
    one of 7-component vectors. *)
Lemma load_database_counterexample :
  exists db,
    _load_database ragged_fs "font_features.pkl" = Ok db
    /\ ~ valid_database db
    /\ map (@length R) (values db) = [3%nat; 2%nat].
Proof.
  exists ragged_items. split; [reflexivity | split; [| reflexivity]].
  intros H. inversion H as [|? ? H3 _]. discriminate H3.
Qed.

(** ** Pixel counts and moments *)

Open Scope Z_scope.

Lemma count_nonzero_row_bounds (r : list Z) :
  0 <= Np.count_nonzero_row r <= Z.of_nat (length r).
Proof.
  induction r as [|p r IH]; simpl length; simpl Np.count_nonzero_row.
  - lia.
  - destruct (p =? 0); lia.
Qed.

Lemma count_nonzero_rows_bounds (w : nat) (rs : list (list Z)) :
  Forall (fun r => length r = w) rs ->
  0 <= Np.count_nonzero_rows rs <= Z.of_nat (length rs * w).
Proof.
  induction 1 as [|r rs Hr _ IH]; simpl length; simpl Np.count_nonzero_rows.
  - lia.
  - pose proof (count_nonzero_row_bounds r). rewrite Hr in *. lia.
Qed.

Lemma count_nonzero_rows_nonneg (rs : list (list Z)) :
  0 <= Np.count_nonzero_rows rs.
Proof.
  induction rs as [|r rs IH]; simpl; [lia |].
  pose proof (count_nonzero_row_bounds r). lia.
Qed.

(** Keeping the low byte of every pixel makes no black pixel white. *)
Lemma count_nonzero_row_low_byte (r : list Z) :
  Np.count_nonzero_row r = 0 ->
  Np.count_nonzero_row (map (fun p => p mod 256) r) = 0.
Proof.
  induction r as [|p r IH]; simpl; trivial.
  pose proof (count_nonzero_row_bounds r).
  destruct (p =? 0) eqn:E; [| lia].
  apply Z.eqb_eq in E. subst p. simpl. lia.
Qed.

Lemma count_nonzero_rows_low_byte (rs : list (list Z)) :
  Np.count_nonzero_rows rs = 0 ->
  Np.count_nonzero_rows (map (map (fun p => p mod 256)) rs) = 0.
Proof.
  induction rs as [|r rs IH]; simpl; trivial.
  pose proof (count_nonzero_row_bounds r) as Hr.
  pose proof (count_nonzero_rows_nonneg rs) as Hrs.
  intros H. rewrite count_nonzero_row_low_byte, IH; lia.
Qed.

(** The pixels of a binary image are bytes already. *)
Lemma binary_low_byte (rs : list (list Z)) :
  forallb (forallb (fun p => (p =? 0) || (p =? 255))) rs = true ->
  map (map (fun p => p mod 256)) rs = rs.
Proof.
  induction rs as [|r rs IH]; simpl; trivial.
  intros H. apply andb_prop in H as [Hr Hrs].
  rewrite (IH Hrs). f_equal.
  clear -Hr. induction r as [|p r IHr]; simpl in *; trivial.
  apply andb_prop in Hr as [Hp Hr]. rewrite (IHr Hr). f_equal.
  apply orb_prop in Hp as [Hp | Hp]; apply Z.eqb_eq in Hp; now subst p.
Qed.

Lemma binary_nonneg (rs : list (list Z)) :
  forallb (forallb (fun p => (p =? 0) || (p =? 255))) rs = true ->
  Forall (Forall (fun p => 0 <= p)) rs.
Proof.
  intros H. apply Forall_forall. intros r Hr. apply Forall_forall.
  intros p Hp. rewrite forallb_forall in H. specialize (H r Hr).
  rewrite forallb_forall in H. specialize (H p Hp).
  apply orb_prop in H as [H | H]; apply Z.eqb_eq in H; lia.
Qed.

Lemma sum_row_bounds (wt : Z -> Z) (lo hi : Z) (r : list Z) (x : Z) :
  Forall (fun p => 0 <= p) r ->
  (forall i, x <= i < x + Z.of_nat (length r) -> lo <= wt i <= hi) ->
  0 <= Cv2.sum_row (fun _ => 1) x r
  /\ lo * Cv2.sum_row (fun _ => 1) x r <= Cv2.sum_row wt x r
  /\ Cv2.sum_row wt x r <= hi * Cv2.sum_row (fun _ => 1) x r.
Proof.
  intros Hr; revert x; induction Hr as [|p r Hp _ IH]; intros x Hwt.
  - simpl. lia.
  - simpl length in Hwt. cbn [Cv2.sum_row]. rewrite Z.mul_1_l.
    destruct (IH (x + 1)) as (H0 & Hlo & Hhi).
    { intros i Hi. apply Hwt. lia. }
    assert (Hx : lo <= wt x <= hi) by (apply Hwt; lia).
    assert (lo * p <= wt x * p) by (apply Z.mul_le_mono_nonneg_r; lia).
    assert (wt x * p <= hi * p) by (apply Z.mul_le_mono_nonneg_r; lia).
    rewrite !Z.mul_add_distr_l. lia.
Qed.

Lemma sum_rows_bounds (wt : Z -> Z -> Z) (lo hi : Z) (w : nat)
  (rs : list (list Z)) (y : Z) :
  Forall (Forall (fun p => 0 <= p)) rs ->
  Forall (fun r => length r = w) rs ->
  (forall j i, y <= j < y + Z.of_nat (length rs) -> 0 <= i < Z.of_nat w ->
               lo <= wt j i <= hi) ->
  0 <= Cv2.sum_rows (fun _ _ => 1) y rs
  /\ lo * Cv2.sum_rows (fun _ _ => 1) y rs <= Cv2.sum_rows wt y rs
  /\ Cv2.sum_rows wt y rs <= hi * Cv2.sum_rows (fun _ _ => 1) y rs.
Proof.
  intros Hnn; revert y; induction Hnn as [|r rs Hr _ IH]; intros y Hw Hwt.
  - simpl. lia.
  - inversion Hw as [|? ? Hlen Hw']; subst.
    simpl length in Hwt. cbn [Cv2.sum_rows].
    destruct (IH (y + 1) Hw') as (H0 & Hlo & Hhi).
    { intros j i Hj Hi. apply Hwt; lia. }
    destruct (sum_row_bounds (wt y) lo hi r 0 Hr) as (R0 & Rlo & Rhi).
    { intros i Hi. apply Hwt; lia. }
    rewrite !Z.mul_add_distr_l. lia.
Qed.

(** Every white pixel weighs at least one. *)
Lemma count_nonzero_row_mass (r : list Z) (x : Z) :
  Forall (fun p => 0 <= p) r ->
  Np.count_nonzero_row r <= Cv2.sum_row (fun _ => 1) x r.
Proof.
  intros Hr; revert x; induction Hr as [|p r Hp _ IH]; intros x;
    cbn [Cv2.sum_row Np.count_nonzero_row].
  - lia.
  - specialize (IH (x + 1)). destruct (p =? 0) eqn:E; [lia |].
    apply Z.eqb_neq in E. lia.
Qed.

Lemma count_nonzero_rows_mass (rs : list (list Z)) (y : Z) :
  Forall (Forall (fun p => 0 <= p)) rs ->
  Np.count_nonzero_rows rs <= Cv2.sum_rows (fun _ _ => 1) y rs.
Proof.
  intros Hnn; revert y; induction Hnn as [|r rs Hr _ IH]; intros y;
    cbn [Cv2.sum_rows Np.count_nonzero_rows].
  - lia.
  - specialize (IH (y + 1)). pose proof (count_nonzero_row_mass r 0 Hr). lia.
Qed.

Close Scope Z_scope.

(** ** The feature vector *)

Lemma astype_count_nonzero_zero (img : image) :
  Np.count_nonzero img = 0%Z ->
  Np.count_nonzero
    match img_dtype img with
    | uint8 => img
    | int32 => Np.astype_uint8 img
    end = 0%Z.
Proof.
  intros H. destruct (img_dtype img); trivial.
  now apply count_nonzero_rows_low_byte.
Qed.

Lemma astype_shape (img : image) :
  shape match img_dtype img with
        | uint8 => img
        | int32 => Np.astype_uint8 img
        end = shape img.
Proof. now destruct (img_dtype img). Qed.

Lemma astype_binary_rows (img : image) :
  is_binary img = true ->
  rows match img_dtype img with
       | uint8 => img
       | int32 => Np.astype_uint8 img
       end = rows img.
Proof.
  intros H. destruct (img_dtype img); trivial.
  now apply binary_low_byte.
Qed.

(** The early returns of [extract_features]. *)
Lemma extract_features_early_return (cv : Cv2.Contours) (img : image) :
  Np.size img = 0%nat \/ Np.count_nonzero img = 0%Z ->
  extract_features cv (Some img) = Np.zeros FEATURE_VECTOR_SIZE.
Proof.
  intros H. unfold extract_features.
  destruct (Nat.eqb (Np.size img) 0) eqn:Esize; [reflexivity |].
  destruct H as [H | H]; [rewrite H in Esize; discriminate |].
  cbv zeta. rewrite astype_shape.
  destruct (shape img) as [h w].
  rewrite (astype_count_nonzero_zero img H).
  now rewrite orb_true_r.
Qed.

(** C6. For a bitmap of zero area or with no foreground pixel, and when
    there is no bitmap at all, [extract_features] returns the vector of
    seven zeros; it does so before any contour is traced, whatever
    OpenCV would answer. *)
Theorem extract_features_sentinel (cv : Cv2.Contours) (img : image) :
  Np.size img = 0%nat \/ Np.count_nonzero img = 0%Z ->
  extract_features cv (Some img) = [0; 0; 0; 0; 0; 0; 0]
  /\ extract_features cv None = [0; 0; 0; 0; 0; 0; 0].
Proof.
  intros H. split.
  - now rewrite extract_features_early_return.
  - reflexivity.
Qed.

Lemma extract_features_sentinel_witness :
  extract_features no_contours (Some image_all_black) = [0; 0; 0; 0; 0; 0; 0]
  /\ extract_features no_contours None = [0; 0; 0; 0; 0; 0; 0].
Proof.
  apply (extract_features_sentinel no_contours image_all_black).
  right. reflexivity.
Defined.

(** The feature vector of a binary bitmap with some foreground: its first
    four components. *)
Lemma extract_features_regular (cv : Cv2.Contours) (img : image)
  (h w : nat) :
  shape img = (h, w) -> h <> 0%nat -> w <> 0%nat ->
  is_binary img = true -> Np.count_nonzero img <> 0%Z ->
  exists holes perimeter area,
    extract_features cv (Some img)
    = [ of_nat w / of_nat h;
        IZR (Np.count_nonzero img) / of_nat (h * w);
        (if (Cv2.m00 (Cv2.moments img) =? 0)%Z then 0.5
         else IZR (Cv2.m10 (Cv2.moments img))
              / IZR (Cv2.m00 (Cv2.moments img)) / of_nat w);
        (if (Cv2.m00 (Cv2.moments img) =? 0)%Z then 0.5
         else IZR (Cv2.m01 (Cv2.moments img))
              / IZR (Cv2.m00 (Cv2.moments img)) / of_nat h);
        holes; perimeter; area ].
Proof.
  intros Hshape Hh Hw Hbin Hcount.
  unfold extract_features.
  assert (Esize : Nat.eqb (Np.size img) 0 = false).
  { apply Nat.eqb_neq. unfold Np.size. rewrite Hshape. simpl. nia. }
  rewrite Esize. cbv zeta. rewrite astype_shape, Hshape.
  unfold Np.count_nonzero, Cv2.moments.
  rewrite (astype_binary_rows img Hbin).
  apply Nat.eqb_neq in Hh, Hw. apply Z.eqb_neq in Hcount.
  unfold Np.count_nonzero in Hcount.
  rewrite Hh, Hw, Hcount. cbn [orb Cv2.m00 Cv2.m10 Cv2.m01].
  destruct (Cv2.findContours cv _) as [contours [hierarchy0|]];
    destruct (Cv2.sum_rows (fun _ _ => 1%Z) 0 (rows img) =? 0)%Z;
    do 3 eexists; reflexivity.
Qed.

Lemma of_nat_pos (n : nat) : n <> 0%nat -> 0 < of_nat n.
Proof. intros H. unfold of_nat. apply IZR_lt. lia. Qed.

(** C9. With [aspect_ratio = w / h] for a binary bitmap of [h] rows and
    [w] columns that has some foreground, the first component of the
    feature vector is [0.5] for a bitmap of shape [(20, 10)], what the
    tests call a 20x10 image, and [2] for a bitmap of shape [(10, 20)]. *)
Theorem extract_features_aspect_ratio (cv : Cv2.Contours) (img : image) :
  is_binary img = true -> Np.count_nonzero img <> 0%Z ->
  (forall h w, shape img = (h, w) -> h <> 0%nat -> w <> 0%nat ->
     nth 0 (extract_features cv (Some img)) 0 = of_nat w / of_nat h)
  /\ (shape img = (20%nat, 10%nat) ->
      nth 0 (extract_features cv (Some img)) 0 = 0.5)
  /\ (shape img = (10%nat, 20%nat) ->
      nth 0 (extract_features cv (Some img)) 0 = 2).
Proof.
  intros Hbin Hcount.
  assert (Hgen : forall h w, shape img = (h, w) -> h <> 0%nat -> w <> 0%nat ->
            nth 0 (extract_features cv (Some img)) 0 = of_nat w / of_nat h).
  { intros h w Hshape Hh Hw.
    destruct (extract_features_regular cv img h w Hshape Hh Hw Hbin Hcount)
      as (holes & perimeter & area & E).
    now rewrite E. }
  split; [exact Hgen | split]; intros Hshape.
  - rewrite (Hgen _ _ Hshape) by discriminate. unfold of_nat. simpl. lra.
  - rewrite (Hgen _ _ Hshape) by discriminate. unfold of_nat. simpl. lra.
Qed.

Lemma extract_features_aspect_ratio_witness :
  nth 0 (extract_features no_contours (Some image_i)) 0 = 0.5
  /\ nth 0 (extract_features no_contours (Some image_dot)) 0 = 2.
Proof.
  split.
  - apply (extract_features_aspect_ratio no_contours image_i);
      [reflexivity | discriminate | reflexivity].
  - apply (extract_features_aspect_ratio no_contours image_dot);
      [reflexivity | discriminate | reflexivity].
Defined.

Lemma well_formed_rows (img : image) :
  well_formed img = true ->
  length (rows img) = fst (shape img)
  /\ Forall (fun r => length r = snd (shape img)) (rows img).
Proof.
  unfold well_formed. intros H.
  apply andb_prop in H as [H _]. apply andb_prop in H as [Hh Hw].
  split; [now apply Nat.eqb_eq |].
  apply Forall_forall. intros r Hr.
  rewrite forallb_forall in Hw. now apply Nat.eqb_eq, Hw.
Qed.

Lemma ratio_in_unit (a b c : R) :
  0 <= a -> 0 < b -> 0 < c -> a <= c * b -> 0 <= a / b / c <= 1.
Proof.
  intros Ha Hb Hc Hle.
  assert (Hbc : 0 < b * c) by nra.
  replace (a / b / c) with (a / (b * c)) by (field; lra).
  split.
  - apply Rmult_le_pos; [lra | left; now apply Rinv_0_lt_compat].
  - apply (Rmult_le_reg_r (b * c)); trivial.
    unfold Rdiv. rewrite Rmult_assoc, Rinv_l by lra. lra.
Qed.

(** C10. For a well-formed binary bitmap with at least one foreground
    pixel, the pixel density of the feature vector lies in (0, 1] and both
    normalised centroid coordinates lie in [0, 1]. *)
Theorem extract_features_bounds (cv : Cv2.Contours) (img : image) :
  well_formed img = true -> is_binary img = true ->
  (0 < Np.count_nonzero img)%Z ->
  let v := extract_features cv (Some img) in
  0 < nth 1 v 0 <= 1
  /\ 0 <= nth 2 v 0 <= 1
  /\ 0 <= nth 3 v 0 <= 1.
Proof.
  intros Hwf Hbin Hcount v.
  destruct (well_formed_rows img Hwf) as [Hrows Hcols].
  destruct (shape img) as [h w] eqn:Hshape. simpl in Hrows, Hcols.
  pose proof (count_nonzero_rows_bounds w (rows img) Hcols) as Hcb.
  fold (Np.count_nonzero img) in Hcb. rewrite Hrows in Hcb.
  assert (Hh : h <> 0%nat) by (intros ->; simpl in Hcb; lia).
  assert (Hw : w <> 0%nat) by (intros ->; rewrite Nat.mul_0_r in Hcb; lia).
  assert (Hne : Np.count_nonzero img <> 0%Z) by lia.
  destruct (extract_features_regular cv img h w Hshape Hh Hw Hbin Hne)
    as (holes & perimeter & area & E).
  unfold v. rewrite E. cbn [nth].
  pose proof (binary_nonneg (rows img) Hbin) as Hnn.
  pose proof (count_nonzero_rows_mass (rows img) 0 Hnn) as Hmass.
  fold (Np.count_nonzero img) in Hmass.
  unfold Cv2.moments. cbn [Cv2.m00 Cv2.m10 Cv2.m01].
  set (mass := Cv2.sum_rows (fun _ _ => 1%Z) 0 (rows img)) in *.
  assert (Hm : (0 < mass)%Z) by lia.
  assert (Em : (mass =? 0)%Z = false) by (apply Z.eqb_neq; lia).
  rewrite Em.
  destruct (sum_rows_bounds (fun _ x => x) 0 (Z.of_nat w) w (rows img) 0
              Hnn Hcols) as (_ & Hx0 & Hx1); [intros; lia |].
  destruct (sum_rows_bounds (fun y _ => y) 0 (Z.of_nat h) w (rows img) 0
              Hnn Hcols) as (_ & Hy0 & Hy1); [intros; lia |].
  fold mass in Hx0, Hx1, Hy0, Hy1.
  pose proof (of_nat_pos h Hh) as Hhpos.
  pose proof (of_nat_pos w Hw) as Hwpos.
  assert (Hmpos : 0 < IZR mass) by now apply IZR_lt.
  split; [| split].
  - assert (Hp : 0 < of_nat (h * w)) by (apply of_nat_pos; nia).
    split.
    + apply Rmult_lt_0_compat; [now apply IZR_lt |].
      now apply Rinv_0_lt_compat.
    + apply (Rmult_le_reg_r (of_nat (h * w))); trivial.
      unfold Rdiv. rewrite Rmult_assoc, Rinv_l by lra.
      rewrite Rmult_1_r, Rmult_1_l. unfold of_nat. apply IZR_le. lia.
  - apply ratio_in_unit; trivial.
    + apply IZR_le. lia.
    + unfold of_nat. rewrite <- mult_IZR. now apply IZR_le.
  - apply ratio_in_unit; trivial.
    + apply IZR_le. lia.
    + unfold of_nat. rewrite <- mult_IZR. now apply IZR_le.
Qed.

Lemma extract_features_bounds_witness :
  let v := extract_features no_contours (Some image_i) in
  0 < nth 1 v 0 <= 1
  /\ 0 <= nth 2 v 0 <= 1
  /\ 0 <= nth 3 v 0 <= 1.
Proof.
  apply (extract_features_bounds no_contours image_i);
    [reflexivity | reflexivity | reflexivity].
Defined.

(** ** Worked examples *)

Ltac compare_scores :=
  repeat match goal with
    | |- context [Rltb ?x ?y] =>
        first [ rewrite (proj2 (Rltb_true x y)) by lra
              | rewrite (proj2 (Rltb_false x y)) by lra ]
    | |- context [Reqb ?x ?y] =>
        first [ rewrite (proj2 (Reqb_true x y)) by lra
              | rewrite (proj2 (Reqb_false x y)) by lra ]
    end.

(** Of a 3-component and a 7-component vector, the second is dropped. *)
Example target_of_mixed_lengths :
  _calculate_target_vector [[1; 2; 3]; [1; 2; 3; 4; 5; 6; 7]]
  = Some [1; 2; 3].
Proof.
  rewrite calculate_target_vector_kept. simpl.
  unfold Np.sum_axis0. simpl. repeat f_equal; lra.
Qed.

Example target_of_one_glyph : _calculate_target_vector [[1; 0]] = Some [1; 0].
Proof.
  rewrite calculate_target_vector_kept. simpl.
  unfold Np.sum_axis0. simpl. repeat f_equal; lra.
Qed.

Example scores_of_matcher_2d :
  map (scored [1; 0]) (font_database matcher_2d)
  = [("A.ttf"%string, 1); ("B.ttf"%string, 0); ("C.ttf"%string, 1)].
Proof.
  unfold scored, similarity. simpl map.
  rewrite norm_1_0, norm_0_1, norm_2_0. compare_scores. simpl.
  repeat f_equal; lra.
Qed.

(** The two fonts of similarity 1 come first, in the order of the
    database. *)
Example best_matches_tie :
  returned (find_best_matches [[1; 0]] 2 matcher_2d)
  = Ok [("A.ttf"%string, 1); ("C.ttf"%string, 1)].
Proof.
  rewrite (find_best_matches_scores matcher_2d [[1; 0]] 2 [1; 0]).
  - rewrite scores_of_matcher_2d. unfold returned, sort_by_score_reverse.
    repeat (progress (simpl; compare_scores)). reflexivity.
  - discriminate.
  - exact target_of_one_glyph.
  - repeat constructor.
Qed.

(** A negative [top_n] is read as Python reads a negative slice bound. *)
Example best_matches_negative_top_n :
  returned (find_best_matches [[1; 0]] (-1) matcher_2d)
  = Ok [("A.ttf"%string, 1); ("C.ttf"%string, 1)].
Proof.
  rewrite (find_best_matches_scores matcher_2d [[1; 0]] (-1) [1; 0]).
  - rewrite scores_of_matcher_2d. unfold returned, sort_by_score_reverse.
    repeat (progress (simpl; compare_scores)). reflexivity.
  - discriminate.
  - exact target_of_one_glyph.
  - repeat constructor.
Qed.


(** A 20x10 bitmap without foreground gives the sentinel, whose first
    component is 0. *)
Example blank_20x10 :
  nth 0 (extract_features no_contours (Some image_blank_20x10)) 0 = 0.
Proof.
  rewrite (extract_features_early_return no_contours image_blank_20x10
             (or_intror eq_refl)).
  reflexivity.
Qed.

(** The bar of [image_i] has 32 pixels among 200, centred on column 4.5
    and row 9.5. *)
Example image_i_features :
  exists holes perimeter area,
    extract_features no_contours (Some image_i)
    = [0.5; 0.16; 0.45; 0.475; holes; perimeter; area].
Proof.
  destruct (extract_features_regular no_contours image_i 20 10)
    as (holes & perimeter & area & E);
    [reflexivity | discriminate | discriminate | reflexivity | discriminate |].
  exists holes, perimeter, area. rewrite E.
  change (Np.count_nonzero image_i) with 32%Z.
  change (Cv2.m00 (Cv2.moments image_i)) with 8160%Z.
  change (Cv2.m10 (Cv2.moments image_i)) with 36720%Z.
  change (Cv2.m01 (Cv2.moments image_i)) with 77520%Z.
  unfold of_nat. simpl. repeat f_equal; lra.
Qed.


(** ** The size and the names of the ranking *)

Lemma firstn_incl {A : Type} (k : nat) (l : list A) : incl (firstn k l) l.
Proof.
  intros x Hx. rewrite <- (firstn_skipn k l). apply in_or_app. now left.
Qed.




Lemma NoDup_firstn {A : Type} (k : nat) (l : list A) :
  NoDup l -> NoDup (firstn k l).
Proof.
  intros H. rewrite <- (firstn_skipn k l) in H.
  now apply NoDup_app_remove_r in H.
Qed.

(** X3. No font is returned twice, and every returned name is a key of
    the database. *)
Theorem find_best_matches_names (self : FontMatcher)
  (character_features : list Np.ndarray) (top_n : Z) (t : Np.ndarray) :
  NoDup (keys (font_database self)) ->
  font_database self <> [] ->
  _calculate_target_vector character_features = Some t ->
  Forall (fun v => length v = length t) (values (font_database self)) ->
  exists ranking,
    returned (find_best_matches character_features top_n self) = Ok ranking
    /\ NoDup (map fst ranking)
    /\ incl (map fst ranking) (keys (font_database self)).
Proof.
  intros Hnd Hdb Ht Hdim.
  rewrite (find_best_matches_scores self _ top_n t) by assumption.
  eexists; split; [reflexivity |].
  set (scores := map (scored t) (font_database self)).
  assert (Hkeys : Permutation (map fst (sort_by_score_reverse scores))
                              (keys (font_database self))).
  { rewrite (Permutation_map fst (sort_by_score_reverse_perm scores)).
    unfold scores, keys. rewrite map_map. reflexivity. }
  unfold slice_to, returned. simpl fst.
  destruct (top_n <? 0)%Z; rewrite <- firstn_map; split;
    try (apply NoDup_firstn;
         apply (Permutation_NoDup (Permutation_sym Hkeys) Hnd));
    intros x Hx; apply firstn_incl in Hx;
    apply (Permutation_in _ Hkeys Hx).
Qed.

Lemma find_best_matches_names_witness :
  exists ranking,
    returned (find_best_matches [[1; 0]] 2 matcher_2d) = Ok ranking
    /\ NoDup (map fst ranking)
    /\ incl (map fst ranking) (keys (font_database matcher_2d)).
Proof.
  apply (find_best_matches_names matcher_2d [[1; 0]] 2
           (Np.mean_axis0 [[1; 0]])).
  - repeat constructor; simpl; intuition discriminate.
  - discriminate.
  - reflexivity.
  - repeat constructor.
Defined.

Lemma cosine_similarity_misaligned (a b : Np.ndarray) :
  length a <> length b -> _cosine_similarity a b = Raise ValueError.
Proof.
  intros H. unfold _cosine_similarity, Np.dot.
  apply Nat.eqb_neq in H. now rewrite H.
Qed.

Lemma score_loop_ragged (target : Np.ndarray) (items : dict Np.ndarray)
  (scores : list (string * R)) :
  Exists (fun v => length v <> length target) (values items) ->
  score_loop target items scores = Raise ValueError.
Proof.
  revert scores; induction items as [|[name v] items IH]; intros scores H.
  - inversion H.
  - simpl. destruct (Nat.eq_dec (length target) (length v)) as [E | E].
    + rewrite cosine_similarity_similarity by exact E. simpl.
      apply IH. inversion H as [? ? Hv | ? ? Hrest]; subst; trivial.
      simpl in Hv. congruence.
    + now rewrite cosine_similarity_misaligned.
Qed.

(** X4. When the first vector of the database has the length of the
    target vector but another vector of the database has not, the guard
    on the dimension is passed and [find_best_matches] raises
    [ValueError]: the length is checked on one sample only. *)
Theorem find_best_matches_ragged_database (self : FontMatcher)
  (character_features : list Np.ndarray) (top_n : Z) (t : Np.ndarray)
  (name : string) (sample : Np.ndarray) (rest : dict Np.ndarray) :
  font_database self = (name, sample) :: rest ->
  _calculate_target_vector character_features = Some t ->
  length t = length sample ->
  Exists (fun v => length v <> length t) (values rest) ->
  find_best_matches character_features top_n self = (Raise ValueError, self).
Proof.
  intros Hdb Ht Hlen Hrag.
  destruct self as [path db]. simpl in Hdb. subst db.
  unfold find_best_matches, bind, attr, ret, lift. simpl.
  rewrite Ht. simpl. rewrite Hlen, Nat.eqb_refl. simpl.
  rewrite cosine_similarity_similarity by exact Hlen. simpl.
  now rewrite score_loop_ragged.
Qed.

Lemma find_best_matches_ragged_database_witness :
  find_best_matches [[1; 2; 3]] 5
    {| db_path := "font_features.pkl"; font_database := ragged_items |}
  = (Raise ValueError,
     {| db_path := "font_features.pkl"; font_database := ragged_items |}).
Proof.
  apply (find_best_matches_ragged_database _ [[1; 2; 3]] 5
           (Np.mean_axis0 [[1; 2; 3]]) "A.ttf" [1; 2; 3]
           [("B.ttf"%string, [1; 2])]).
  - reflexivity.
  - reflexivity.
  - reflexivity.
  - constructor. simpl. lia.
Defined.

(** ** Vectors of one length *)

Lemma kept_uniform (d : nat) (vs : list Np.ndarray) :
  Forall (fun v => length v = d) vs -> kept vs = vs.
Proof.
  intros H. destruct vs as [|v vs]; trivial.
  unfold kept. apply forallb_filter_id. apply forallb_forall.
  intros u Hu. rewrite Forall_forall in H.
  apply Nat.eqb_eq. rewrite (H u Hu). symmetry. apply H. now left.
Qed.

(** ** The shape of the feature vector *)

Lemma extract_features_length (cv : Cv2.Contours)
  (char_image : option image) :
  length (extract_features cv char_image) = FEATURE_VECTOR_SIZE.
Proof.
  unfold extract_features.
  destruct char_image as [img|]; [| reflexivity].
  destruct (Nat.eqb (Np.size img) 0); [reflexivity |].
  cbv zeta.
  destruct (shape _) as [h w].
  destruct (Nat.eqb h 0 || Nat.eqb w 0 || _)%bool; [reflexivity |].
  destruct (Cv2.m00 _ =? 0)%Z;
    destruct (Cv2.findContours cv _) as [contours [hierarchy0|]];
    reflexivity.
Qed.

(** X8. Whatever the image, and whatever OpenCV finds in it,
    [extract_features] returns a vector of [FEATURE_VECTOR_SIZE = 7]
    components, so the vectors of a list of glyphs all have one length. *)
Theorem extract_features_size (cv : Cv2.Contours)
  (glyphs : list (option image)) :
  Forall (fun v => length v = FEATURE_VECTOR_SIZE)
         (map (extract_features cv) glyphs).
Proof.
  apply Forall_forall. intros v Hv.
  apply in_map_iff in Hv as (g & <- & _). apply extract_features_length.
Qed.

(** X9. For a [uint8] image the sentinel is returned only when there is
    nothing to measure: the feature vector is the zero vector exactly when
    the image has zero area or no non-zero pixel. *)
Theorem extract_features_sentinel_iff (cv : Cv2.Contours) (img : image) :
  img_dtype img = uint8 ->
  extract_features cv (Some img) = Np.zeros FEATURE_VECTOR_SIZE
  <-> (Np.size img = 0%nat \/ Np.count_nonzero img = 0%Z).
Proof.
  intros Hdt. split; [| apply extract_features_early_return].
  unfold extract_features. rewrite Hdt. unfold Np.size.
  destruct (shape img) as [h w]. simpl fst. simpl snd.
  destruct (Nat.eqb (h * w) 0) eqn:Esize;
    [intros _; left; now apply Nat.eqb_eq |].
  cbv zeta.
  destruct (Nat.eqb h 0) eqn:Eh; [apply Nat.eqb_eq in Eh; subst h;
                                  discriminate Esize |].
  destruct (Nat.eqb w 0) eqn:Ew;
    [apply Nat.eqb_eq in Ew; subst w; rewrite Nat.mul_0_r in Esize;
     discriminate Esize |].
  destruct (Np.count_nonzero img =? 0)%Z eqn:Ec;
    [intros _; right; now apply Z.eqb_eq |].
  cbn [orb].
  apply Nat.eqb_neq in Eh, Ew.
  pose proof (of_nat_pos h Eh) as Hh. pose proof (of_nat_pos w Ew) as Hw.
  assert (Hratio : of_nat w / of_nat h <> 0).
  { apply Rgt_not_eq. apply Rdiv_lt_0_compat; lra. }
  destruct (Cv2.m00 _ =? 0)%Z;
    destruct (Cv2.findContours cv _) as [contours [hierarchy0|]];
    intros H; injection H as H; contradiction.
Qed.

Lemma extract_features_sentinel_iff_witness :
  extract_features no_contours (Some image_i) = Np.zeros FEATURE_VECTOR_SIZE
  <-> (Np.size image_i = 0%nat \/ Np.count_nonzero image_i = 0%Z).
Proof.
  apply (extract_features_sentinel_iff no_contours image_i). reflexivity.
Defined.

(** ** The centroid of a symmetric glyph *)

Open Scope Z_scope.

Lemma sum_row_app (wt : Z -> Z) (x : Z) (l : list Z) (p : Z) :
  Cv2.sum_row wt x (l ++ [p])
  = Cv2.sum_row wt x l + wt (x + Z.of_nat (length l)) * p.
Proof.
  revert x; induction l as [|q l IH]; intros x.
  - cbn [app Cv2.sum_row length Z.of_nat].
    replace (x + 0) with x by lia. ring.
  - cbn [app Cv2.sum_row length]. rewrite IH.
    replace (x + 1 + Z.of_nat (length l)) with (x + Z.of_nat (S (length l)))
      by lia.
    ring.
Qed.

Lemma sum_row_mirror (r : list Z) (x : Z) :
  Cv2.sum_row (fun i => i) x r + Cv2.sum_row (fun i => i) x (rev r)
  = (2 * x + Z.of_nat (length r) - 1) * Cv2.sum_row (fun _ => 1) x r
  /\ Cv2.sum_row (fun _ => 1) x (rev r) = Cv2.sum_row (fun _ => 1) x r
  /\ Cv2.sum_row (fun i => i) (x + 1) r
     = Cv2.sum_row (fun i => i) x r + Cv2.sum_row (fun _ => 1) x r
  /\ Cv2.sum_row (fun _ => 1) (x + 1) r = Cv2.sum_row (fun _ => 1) x r.
Proof.
  revert x; induction r as [|p r IH]; intros x.
  - cbn [rev Cv2.sum_row length]. lia.
  - destruct (IH x) as (Hm & Hrev & Hshift & Hmass).
    destruct (IH (x + 1)) as (_ & _ & Hshift1 & Hmass1).
    cbn [rev length]. rewrite !sum_row_app. cbn [Cv2.sum_row].
    rewrite length_rev, Hrev, Hshift1, Hmass1, Hshift, Hmass.
    repeat split; lia.
Qed.

Lemma sum_row_palindrome (r : list Z) :
  rev r = r ->
  2 * Cv2.sum_row (fun i => i) 0 r
  = (Z.of_nat (length r) - 1) * Cv2.sum_row (fun _ => 1) 0 r.
Proof.
  intros H. destruct (sum_row_mirror r 0) as (Hm & _).
  rewrite H in Hm. lia.
Qed.

(** Rows that read the same from both ends. *)
Lemma moments_mirror_x (w : nat) (rs : list (list Z)) (y : Z) :
  Forall (fun r => length r = w) rs ->
  Forall (fun r => rev r = r) rs ->
  2 * Cv2.sum_rows (fun _ x => x) y rs
  = (Z.of_nat w - 1) * Cv2.sum_rows (fun _ _ => 1) y rs.
Proof.
  intros Hw; revert y; induction Hw as [|r rs Hr _ IH]; intros y Hp.
  - cbn [Cv2.sum_rows]. ring.
  - inversion Hp as [|? ? Hpr Hprs]; subst.
    cbn [Cv2.sum_rows]. specialize (IH (y + 1) Hprs).
    pose proof (sum_row_palindrome r Hpr) as Hrow.
    rewrite !Z.mul_add_distr_l, IH, Hrow. reflexivity.
Qed.

(** The moments in the vertical direction are those of the column of the
    masses of the rows. *)
Lemma sum_row_const (c : Z) (r : list Z) (x : Z) :
  Cv2.sum_row (fun _ => c) x r = c * Cv2.sum_row (fun _ => 1) x r.
Proof.
  revert x; induction r as [|p r IH]; intros x; cbn [Cv2.sum_row].
  - ring.
  - rewrite IH. ring.
Qed.

Lemma sum_rows_masses (rs : list (list Z)) (y : Z) :
  Cv2.sum_rows (fun j _ => j) y rs
  = Cv2.sum_row (fun j => j) y
      (map (Cv2.sum_row (fun _ => 1) 0) rs)
  /\ Cv2.sum_rows (fun _ _ => 1) y rs
     = Cv2.sum_row (fun _ => 1) y
         (map (Cv2.sum_row (fun _ => 1) 0) rs).
Proof.
  revert y; induction rs as [|r rs IH]; intros y.
  - split; reflexivity.
  - destruct (IH (y + 1)) as [H1 H0].
    cbn [map Cv2.sum_rows Cv2.sum_row]. rewrite H1, H0, sum_row_const.
    split; ring.
Qed.

Lemma moments_mirror_y (rs : list (list Z)) :
  rev rs = rs ->
  2 * Cv2.sum_rows (fun j _ => j) 0 rs
  = (Z.of_nat (length rs) - 1) * Cv2.sum_rows (fun _ _ => 1) 0 rs.
Proof.
  intros H. destruct (sum_rows_masses rs 0) as [H1 H0].
  rewrite H1, H0.
  rewrite <- (length_map (Cv2.sum_row (fun _ => 1) 0) rs).
  apply sum_row_palindrome.
  now rewrite <- map_rev, H.
Qed.

Close Scope Z_scope.

Lemma centroid_of_mirror (m1 m0 : Z) (n : nat) :
  (2 * m1 = (Z.of_nat n - 1) * m0)%Z -> (0 < m0)%Z -> n <> 0%nat ->
  IZR m1 / IZR m0 / of_nat n = (of_nat n - 1) / (2 * of_nat n).
Proof.
  intros H Hm Hn.
  pose proof (of_nat_pos n Hn) as Hnpos.
  assert (Hmpos : 0 < IZR m0) by now apply IZR_lt.
  apply (f_equal IZR) in H.
  rewrite !mult_IZR, minus_IZR in H. fold (of_nat n) in H.
  replace (IZR m1) with ((of_nat n - 1) * IZR m0 / 2) by lra.
  field. split; lra.
Qed.

(** X10. The centroid of a symmetric glyph sits on the middle pixel
    coordinate: for a well-formed binary bitmap of [h] rows and [w]
    columns with some foreground, the normalised centroid abscissa is
    [(w - 1) / (2 w)] when every row reads the same from both ends, and
    the normalised ordinate is [(h - 1) / (2 h)] when the rows read the
    same from top and bottom; that is half a pixel short of 0.5. *)
Theorem extract_features_symmetric_centroid (cv : Cv2.Contours)
  (img : image) (h w : nat) :
  shape img = (h, w) -> well_formed img = true -> is_binary img = true ->
  (0 < Np.count_nonzero img)%Z ->
  (Forall (fun r => rev r = r) (rows img) ->
   nth 2 (extract_features cv (Some img)) 0
   = (of_nat w - 1) / (2 * of_nat w))
  /\ (rev (rows img) = rows img ->
      nth 3 (extract_features cv (Some img)) 0
      = (of_nat h - 1) / (2 * of_nat h)).
Proof.
  intros Hshape Hwf Hbin Hcount.
  destruct (well_formed_rows img Hwf) as [Hrows Hcols].
  rewrite Hshape in Hrows, Hcols. simpl in Hrows, Hcols.
  pose proof (count_nonzero_rows_bounds w (rows img) Hcols) as Hcb.
  fold (Np.count_nonzero img) in Hcb. rewrite Hrows in Hcb.
  assert (Hh : h <> 0%nat) by (intros ->; simpl in Hcb; lia).
  assert (Hw : w <> 0%nat) by (intros ->; rewrite Nat.mul_0_r in Hcb; lia).
  assert (Hne : Np.count_nonzero img <> 0%Z) by lia.
  destruct (extract_features_regular cv img h w Hshape Hh Hw Hbin Hne)
    as (holes & perimeter & area & E).
  rewrite E. cbn [nth].
  pose proof (binary_nonneg (rows img) Hbin) as Hnn.
  pose proof (count_nonzero_rows_mass (rows img) 0 Hnn) as Hmass.
  fold (Np.count_nonzero img) in Hmass.
  unfold Cv2.moments. cbn [Cv2.m00 Cv2.m10 Cv2.m01].
  set (mass := Cv2.sum_rows (fun _ _ => 1%Z) 0 (rows img)) in *.
  assert (Hm : (0 < mass)%Z) by lia.
  assert (Em : (mass =? 0)%Z = false) by (apply Z.eqb_neq; lia).
  rewrite Em. split.
  - intros Hsym. apply centroid_of_mirror; trivial.
    now apply moments_mirror_x.
  - intros Hsym. apply centroid_of_mirror; trivial.
    rewrite <- Hrows. now apply moments_mirror_y.
Qed.

Lemma extract_features_symmetric_centroid_witness :
  nth 3 (extract_features no_contours (Some image_i)) 0
  = (of_nat 20 - 1) / (2 * of_nat 20).
Proof.
  apply (extract_features_symmetric_centroid no_contours image_i 20 10);
    reflexivity.
Defined.


(** ** From the glyphs to the ranking *)

Lemma glyphs_to_ranking_aux (cv : Cv2.Contours) (glyphs : list (option image))
  (self : FontMatcher) (top_n : Z) :
  glyphs <> [] ->
  font_database self <> [] ->
  valid_database (font_database self) ->
  (0 <= top_n)%Z ->
  let features := map (extract_features cv) glyphs in
  exists t ranking,
    _calculate_target_vector features = Some t
    /\ length t = FEATURE_VECTOR_SIZE
    /\ is_mean_of features t
    /\ returned (find_best_matches features top_n self) = Ok ranking
    /\ length ranking
       = Nat.min (Z.to_nat top_n) (length (font_database self)).
Proof.
  intros Hg Hdb Hvalid Hn features.
  assert (Hlen : Forall (fun v => length v = FEATURE_VECTOR_SIZE) features).
  { apply Forall_forall. intros v Hv.
    apply in_map_iff in Hv as (g & <- & _). apply extract_features_length. }
  destruct features as [|f fs] eqn:E.
  { destruct glyphs; [now elim Hg | discriminate E]. }
  pose proof (calculate_target_vector_kept f fs) as Ht.
  rewrite (kept_uniform _ _ Hlen) in Ht.
  assert (Hmean : is_mean_of (f :: fs) (Np.mean_axis0 (f :: fs))).
  { apply mean_axis0_is_mean.
    inversion Hlen as [|? ? Hf Hfs]; subst.
    revert Hfs. apply Forall_impl. intros v Hv. congruence. }
  assert (Hsize : length (Np.mean_axis0 (f :: fs)) = FEATURE_VECTOR_SIZE).
  { destruct Hmean as [Hall _]. inversion Hall as [|? ? Hf _]; subst.
    inversion Hlen as [|? ? Hf7 _]; subst. congruence. }
  exists (Np.mean_axis0 (f :: fs)).
  rewrite (find_best_matches_scores self _ top_n _ Hdb Ht).
  - eexists. repeat split; trivial; try apply Hmean.
    unfold returned. simpl fst.
    rewrite slice_to_firstn by assumption.
    rewrite length_firstn,
      (Permutation_length (sort_by_score_reverse_perm _)).
    now rewrite length_map.
  - unfold valid_database in Hvalid. revert Hvalid.
    apply Forall_impl. intros v Hv. congruence.
Qed.

(** X11. The extractor and the matcher agree on the dimension: the feature
    vectors of a non-empty list of glyphs are all kept by the aggregation,
    their target vector has 7 components and is their mean, and against a
    non-empty database of 7-component vectors [find_best_matches] neither
    stops at the dimension guard nor raises: it returns
    [min(top_n, number of fonts)] pairs. *)
Theorem glyphs_to_ranking (cv : Cv2.Contours) (glyphs : list (option image))
  (self : FontMatcher) (top_n : Z) :
  glyphs <> [] ->
  font_database self <> [] ->
  valid_database (font_database self) ->
  (0 <= top_n)%Z ->
  let features := map (extract_features cv) glyphs in
  exists t ranking,
    _calculate_target_vector features = Some t
    /\ length t = FEATURE_VECTOR_SIZE
    /\ is_mean_of features t
    /\ returned (find_best_matches features top_n self) = Ok ranking
    /\ length ranking
       = Nat.min (Z.to_nat top_n) (length (font_database self)).
Proof.
  intros Hg Hdb Hvalid Hn. now apply glyphs_to_ranking_aux.
Qed.

Lemma glyphs_to_ranking_witness :
  exists t ranking,
    _calculate_target_vector
      (map (extract_features no_contours) [Some image_i; Some image_dot])
    = Some t
    /\ length t = FEATURE_VECTOR_SIZE
    /\ returned
         (find_best_matches
            (map (extract_features no_contours) [Some image_i; Some image_dot])
            3
            {| db_path := "font_features.pkl";
               font_database :=
                 [("A.ttf"%string, [1; 0; 0; 0; 0; 0; 0]);
                  ("B.ttf"%string, [0; 1; 0; 0; 0; 0; 0])] |})
       = Ok ranking
    /\ length ranking = 2%nat.
Proof.
  destruct (glyphs_to_ranking no_contours [Some image_i; Some image_dot]
              {| db_path := "font_features.pkl";
                 font_database :=
                   [("A.ttf"%string, [1; 0; 0; 0; 0; 0; 0]);
                    ("B.ttf"%string, [0; 1; 0; 0; 0; 0; 0])] |} 3)
    as (t & ranking & Ht & Hsize & _ & Hret & Hlen).
  - discriminate.
  - discriminate.
  - repeat constructor.
  - lia.
  - exists t, ranking. repeat split; assumption.
Defined.


(** ** The settings *)

Lemma dict_get_set_same {V : Type} (k : string) (v : V) (d : dict V) :
  dict_get k (dict_set k v d) = Some v.
Proof.
  induction d as [|[k' v'] d IH]; simpl.
  - now rewrite String.eqb_refl.
  - destruct (String.eqb k' k) eqn:E; simpl; now rewrite E.
Qed.

Lemma dict_get_set_other {V : Type} (k k' : string) (v : V) (d : dict V) :
  k' <> k -> dict_get k' (dict_set k v d) = dict_get k' d.
Proof.
  intros Hne. induction d as [|[k0 v0] d IH]; simpl.
  - apply String.eqb_neq in Hne. rewrite String.eqb_sym. now rewrite Hne.
  - destruct (String.eqb k0 k) eqn:E; simpl.
    + apply String.eqb_eq in E. subst k0.
      apply not_eq_sym, String.eqb_neq in Hne. now rewrite Hne.
    + now rewrite IH.
Qed.

Lemma dict_get_None {V : Type} (k : string) (d : dict V) :
  dict_get k d = None <-> ~ In k (keys d).
Proof.
  induction d as [|[k' v'] d IH]; simpl.
  - tauto.
  - destruct (String.eqb k' k) eqn:E.
    + apply String.eqb_eq in E. split; [discriminate | tauto].
    + apply String.eqb_neq in E. rewrite IH. tauto.
Qed.

Lemma dict_set_keys {V : Type} (k : string) (v : V) (d : dict V) :
  keys (dict_set k v d) = if in_dec string_dec k (keys d) then keys d
                          else keys d ++ [k].
Proof.
  induction d as [|[k' v'] d IH]; simpl; trivial.
  destruct (String.eqb k' k) eqn:E.
  - apply String.eqb_eq in E. subst k'. simpl.
    destruct (string_dec k k); [| congruence].
    reflexivity.
  - apply String.eqb_neq in E. simpl. rewrite IH.
    destruct (string_dec k' k); [congruence |].
    now destruct (in_dec string_dec k (keys d)).
Qed.

Lemma dict_set_NoDup {V : Type} (k : string) (v : V) (d : dict V) :
  NoDup (keys d) -> NoDup (keys (dict_set k v d)).
Proof.
  intros H. rewrite dict_set_keys.
  destruct (in_dec string_dec k (keys d)) as [Hin | Hin]; trivial.
  apply NoDup_app; trivial.
  - repeat constructor. intros [].
  - intros x Hx [<- | []]. contradiction.
Qed.

Lemma dict_set_incl {V : Type} (k : string) (v : V) (d : dict V) :
  incl (keys d) (keys (dict_set k v d)).
Proof.
  rewrite dict_set_keys.
  destruct (in_dec string_dec k (keys d)); [apply incl_refl |].
  now apply incl_appl, incl_refl.
Qed.

Lemma dict_update_get {V : Type} (k : string) (d other : dict V) :
  NoDup (keys other) ->
  dict_get k (dict_update d other)
  = match dict_get k other with
    | Some v => Some v
    | None => dict_get k d
    end.
Proof.
  unfold dict_update. revert d.
  induction other as [|[k1 v1] other IH]; intros d Hnd; simpl; trivial.
  inversion Hnd as [|? ? Hk1 Hnd']; subst.
  rewrite (IH _ Hnd').
  destruct (String.eqb k1 k) eqn:E.
  - apply String.eqb_eq in E. subst k1.
    apply dict_get_None in Hk1. rewrite Hk1. apply dict_get_set_same.
  - apply String.eqb_neq in E.
    rewrite dict_get_set_other by congruence. reflexivity.
Qed.

Lemma dict_update_keys {V : Type} (d other : dict V) :
  (NoDup (keys d) -> NoDup (keys (dict_update d other)))
  /\ incl (keys d) (keys (dict_update d other)).
Proof.
  unfold dict_update. revert d.
  induction other as [|[k1 v1] other IH]; intros d; simpl.
  - split; [trivial | apply incl_refl].
  - destruct (IH (dict_set k1 v1 d)) as [Hnd Hincl]. split.
    + intros H. now apply Hnd, dict_set_NoDup.
    + eapply incl_tran; [apply dict_set_incl | exact Hincl].
Qed.

Lemma defaults_NoDup : NoDup (keys ConfigManager.defaults).
Proof. repeat constructor; simpl; intuition discriminate. Qed.

Lemma config_init_get (d : disk) (user : dict json) (key : string)
  (fallback : json) :
  config_json d = Parsed (Settings user) ->
  NoDup (keys user) ->
  ConfigManager.get (fst (ConfigManager.__init__ d)) key fallback
  = match dict_get key user with
    | Some v => v
    | None =>
        match dict_get key ConfigManager.defaults with
        | Some v => v
        | None => fallback
        end
    end.
Proof.
  intros Hfile Hnd.
  unfold ConfigManager.__init__, ConfigManager.load_config,
    ConfigManager.get.
  rewrite Hfile. cbn [fst snd ConfigManager._config].
  rewrite (dict_update_get key _ user Hnd).
  now destruct (dict_get key user).
Qed.

(** X12. After the construction of the configuration manager from a file
    that holds a JSON object, a setting has the value of the file when the
    file has the key, else its default value when there is one, else the
    fallback of [get]; and the file is left as it was. *)
Theorem config_lookup (d : disk) (user : dict json) (key : string)
  (fallback : json) :
  config_json d = Parsed (Settings user) ->
  NoDup (keys user) ->
  ConfigManager.get (fst (ConfigManager.__init__ d)) key fallback
  = match dict_get key user with
    | Some v => v
    | None =>
        match dict_get key ConfigManager.defaults with
        | Some v => v
        | None => fallback
        end
    end
  /\ snd (ConfigManager.__init__ d) = d.
Proof.
  intros Hfile Hnd. split.
  - now apply config_init_get.
  - unfold ConfigManager.__init__, ConfigManager.load_config.
    now rewrite Hfile.
Qed.

Lemma config_lookup_witness :
  ConfigManager.TOP_N_MATCHES
    (fst (ConfigManager.__init__
            {| config_json :=
                 Parsed (Settings [("top_n_matches"%string, JInt 10)]);
               writable := true |}))
  = JInt 10
  /\ ConfigManager.OCR_CONFIDENCE_THRESHOLD
       (fst (ConfigManager.__init__
               {| config_json :=
                    Parsed (Settings [("top_n_matches"%string, JInt 10)]);
                  writable := true |}))
     = JInt 60.
Proof.
  split.
  - apply (config_lookup
             {| config_json :=
                  Parsed (Settings [("top_n_matches"%string, JInt 10)]);
                writable := true |}
             [("top_n_matches"%string, JInt 10)]
             "top_n_matches" JNull eq_refl).
    repeat constructor. intros [].
  - apply (config_lookup
             {| config_json :=
                  Parsed (Settings [("top_n_matches"%string, JInt 10)]);
                writable := true |}
             [("top_n_matches"%string, JInt 10)]
             "ocr_confidence_threshold" JNull eq_refl).
    repeat constructor. intros [].
Defined.



(** The managers that [__init__] and [set] produce: each key once, and no
    default key missing. *)
Lemma config_init_keys (d : disk) :
  (match config_json d with
   | Parsed (Settings user) => NoDup (keys user)
   | _ => True
   end) ->
  NoDup (keys (ConfigManager._config (fst (ConfigManager.__init__ d))))
  /\ incl (keys ConfigManager.defaults)
          (keys (ConfigManager._config (fst (ConfigManager.__init__ d)))).
Proof.
  unfold ConfigManager.__init__, ConfigManager.load_config.
  destruct (config_json d) as [| | [user|]]; intros _;
    cbn [fst ConfigManager._config];
    try (split; [apply defaults_NoDup | apply incl_refl]).
  destruct (dict_update_keys ConfigManager.defaults user) as [Hnd Hincl].
  split; [apply Hnd, defaults_NoDup | exact Hincl].
Qed.

(** X14. [set] then [get] gives the value that was set, and the other
    settings are not touched; on a writable file the whole configuration,
    the new value included, is what the file holds afterwards, and a file
    that cannot be written stays as it was while the value is changed in
    memory all the same. *)
Theorem config_set_get (self : ConfigManager.t) (d : disk)
  (key : string) (value fallback : json) :
  let out := ConfigManager.set self key value d in
  ConfigManager.get (fst out) key fallback = value
  /\ (forall other, other <> key ->
        ConfigManager.get (fst out) other fallback
        = ConfigManager.get self other fallback)
  /\ (writable d = true ->
      config_json (snd out)
      = Parsed (Settings (ConfigManager._config (fst out))))
  /\ (writable d = false -> snd out = d).
Proof.
  unfold ConfigManager.set, ConfigManager.get, ConfigManager.save_config.
  cbn [fst snd ConfigManager._config].
  split; [| split; [| split]].
  - now rewrite dict_get_set_same.
  - intros other Hne. now rewrite dict_get_set_other.
  - intros Hw. now rewrite Hw.
  - intros Hw. now rewrite Hw.
Qed.

Lemma config_set_get_witness :
  let out :=
    ConfigManager.set
      {| ConfigManager._defaults := ConfigManager.defaults;
         ConfigManager._config := ConfigManager.defaults |}
      "ocr_confidence_threshold" (JInt 75)
      {| config_json := NoFile; writable := true |} in
  ConfigManager.OCR_CONFIDENCE_THRESHOLD (fst out) = JInt 75
  /\ ConfigManager.TOP_N_MATCHES (fst out) = JInt 3
  /\ config_json (snd out)
     = Parsed (Settings (ConfigManager._config (fst out))).
Proof.
  intros out.
  destruct (config_set_get
              {| ConfigManager._defaults := ConfigManager.defaults;
                 ConfigManager._config := ConfigManager.defaults |}
              {| config_json := NoFile; writable := true |}
              "ocr_confidence_threshold" (JInt 75) JNull)
    as (Hget & Hother & Hsaved & _).
  split; [exact Hget | split].
  - unfold ConfigManager.TOP_N_MATCHES, out.
    rewrite Hother by discriminate. reflexivity.
  - apply Hsaved. reflexivity.
Defined.

(** X15. A setting survives a restart: after [set] on a writable file, a
    manager constructed anew from the file answers every [get] as the
    manager that saved it, and reading the file back does not change
    it. *)
Theorem config_persistence (self : ConfigManager.t) (d : disk)
  (key : string) (value : json) :
  NoDup (keys (ConfigManager._config self)) ->
  incl (keys ConfigManager.defaults) (keys (ConfigManager._config self)) ->
  writable d = true ->
  let saved := ConfigManager.set self key value d in
  let reloaded := ConfigManager.__init__ (snd saved) in
  (forall k fallback,
     ConfigManager.get (fst reloaded) k fallback
     = ConfigManager.get (fst saved) k fallback)
  /\ ConfigManager.get (fst reloaded) key JNull = value
  /\ snd reloaded = snd saved.
Proof.
  intros Hnd Hincl Hw saved reloaded.
  set (cfg := dict_set key value (ConfigManager._config self)).
  assert (Hsaved : snd saved
                   = {| config_json := Parsed (Settings cfg);
                        writable := true |}).
  { unfold saved, ConfigManager.set, ConfigManager.save_config.
    cbn [snd ConfigManager._config]. now rewrite Hw. }
  assert (Hcfg : ConfigManager._config (fst saved) = cfg) by reflexivity.
  assert (Hnd' : NoDup (keys cfg)) by now apply dict_set_NoDup.
  assert (Hall : forall k fallback,
            ConfigManager.get (fst reloaded) k fallback
            = ConfigManager.get (fst saved) k fallback).
  { intros k fallback. unfold reloaded. rewrite Hsaved.
    rewrite (config_init_get
               {| config_json := Parsed (Settings cfg); writable := true |}
               cfg k fallback eq_refl Hnd'). unfold ConfigManager.get. rewrite Hcfg.
    destruct (dict_get k cfg) eqn:E; trivial.
    apply dict_get_None in E.
    assert (Hk : ~ In k (keys ConfigManager.defaults)).
    { intros Hin. apply E. apply (dict_set_incl key value). now apply Hincl. }
    apply dict_get_None in Hk. now rewrite Hk. }
  split; [exact Hall | split].
  - rewrite Hall. unfold ConfigManager.get. rewrite Hcfg.
    unfold cfg. now rewrite dict_get_set_same.
  - unfold reloaded. rewrite Hsaved. reflexivity.
Qed.

Lemma config_persistence_witness :
  let saved :=
    ConfigManager.set
      {| ConfigManager._defaults := ConfigManager.defaults;
         ConfigManager._config := ConfigManager.defaults |}
      "ocr_confidence_threshold" (JInt 75)
      {| config_json := NoFile; writable := true |} in
  ConfigManager.OCR_CONFIDENCE_THRESHOLD
    (fst (ConfigManager.__init__ (snd saved)))
  = JInt 75.
Proof.
  intros saved.
  apply (config_persistence
           {| ConfigManager._defaults := ConfigManager.defaults;
              ConfigManager._config := ConfigManager.defaults |}
           {| config_json := NoFile; writable := true |}
           "ocr_confidence_threshold" (JInt 75)).
  - apply defaults_NoDup.
  - apply incl_refl.
  - reflexivity.
Defined.

(** ** The detections of the image processor *)

Lemma Rleb_true (x y : R) : Rleb x y = true <-> x <= y.
Proof. unfold Rleb. destruct (Rle_dec x y); split; congruence. Qed.

(** X16. For a capture that is not empty, [process_image] returns the
    binarized image together with the detections of the reader on that
    image whose confidence is at least 0.60, in the order of the reader
    and none of them left out; when the reader raises, whatever the
    exception, no exception leaves [process_image]: the list is empty. *)
Theorem process_image_detections (cv : ImageProcessor.Imgproc)
  (reader : ImageProcessor.Reader) (image_np : ImageProcessor.capture cv) :
  ImageProcessor.capture_size cv image_np <> 0%nat ->
  let preprocessed := ImageProcessor._preprocess cv image_np in
  let out := ImageProcessor.process_image cv reader (Some image_np) in
  fst out = ImageProcessor.Binarized preprocessed
  /\ Forall (fun c => 0.6 <= ImageProcessor.confidence c) (snd out)
  /\ match reader preprocessed with
     | Ok results =>
         forall box txt conf,
           In (box, txt, conf) results ->
           (0.6 <= conf <->
            In {| ImageProcessor.bbox := box;
                  ImageProcessor.text := txt;
                  ImageProcessor.confidence := conf |} (snd out))
     | Raise _ => snd out = []
     end
  /\ (forall results, reader preprocessed = Ok results ->
        map ImageProcessor.confidence (snd out)
        = filter (Rleb 0.6) (map snd results)).
Proof.
  intros Hsize preprocessed out.
  unfold out, ImageProcessor.process_image.
  apply Nat.eqb_neq in Hsize. rewrite Hsize. cbn [fst snd].
  fold preprocessed. unfold ImageProcessor._run_ocr.
  replace ImageProcessor.OCR_CONFIDENCE_THRESHOLD with 0.6
    by (unfold ImageProcessor.OCR_CONFIDENCE_THRESHOLD; lra).
  split; [reflexivity | split; [| split]].
  - destruct (reader preprocessed) as [results|e]; [| constructor].
    apply Forall_forall. intros c Hc.
    apply in_map_iff in Hc as (r & <- & Hr).
    apply filter_In in Hr as [_ Hr]. now apply Rleb_true in Hr.
  - destruct (reader preprocessed) as [results|e]; [| reflexivity].
    intros box txt conf Hin. split.
    + intros Hconf. apply in_map_iff. exists (box, txt, conf).
      split; [reflexivity |]. apply filter_In. split; trivial.
      now apply Rleb_true.
    + intros Hc. apply in_map_iff in Hc as ([[b t] c] & E & Hr).
      injection E as -> -> ->.
      apply filter_In in Hr as [_ Hr]. now apply Rleb_true in Hr.
  - intros results ->. rewrite map_map. cbn [ImageProcessor.confidence].
    induction results as [|r results IH]; simpl; trivial.
    destruct (Rleb 0.6 (snd r)); simpl; now rewrite IH.
Qed.

(** ** The order of strings and the sorted list of fonts *)

Lemma ascii_compare_refl (c : Ascii.ascii) : Ascii.compare c c = Eq.
Proof. unfold Ascii.compare. apply N.compare_refl. Qed.

Lemma ascii_compare_trans (a b c : Ascii.ascii) :
  Ascii.compare a b = Lt -> Ascii.compare b c = Lt -> Ascii.compare a c = Lt.
Proof.
  unfold Ascii.compare. rewrite !N.compare_lt_iff. apply N.lt_trans.
Qed.

Lemma string_compare_refl (s : string) : String.compare s s = Eq.
Proof.
  induction s as [|c s IH]; simpl; trivial.
  now rewrite ascii_compare_refl.
Qed.

Lemma string_lt_trans (a b c : string) :
  string_lt a b -> string_lt b c -> string_lt a c.
Proof.
  unfold string_lt. revert b c.
  induction a as [|x a IH]; intros [|y b] [|z c]; simpl; trivial;
    try discriminate.
  destruct (Ascii.compare x y) eqn:Exy; try discriminate;
    destruct (Ascii.compare y z) eqn:Eyz; try discriminate; intros Hab Hbc.
  - apply Ascii.compare_eq_iff in Exy, Eyz. subst.
    rewrite ascii_compare_refl. now apply (IH b).
  - apply Ascii.compare_eq_iff in Exy. subst. now rewrite Eyz.
  - apply Ascii.compare_eq_iff in Eyz. subst. now rewrite Exy.
  - now rewrite (ascii_compare_trans x y z).
Qed.

Lemma string_lt_irrefl (a : string) : ~ string_lt a a.
Proof. unfold string_lt. now rewrite string_compare_refl. Qed.

Lemma string_leb_lt (a b : string) :
  String.leb a b = true -> a <> b -> string_lt a b.
Proof.
  unfold String.leb, string_lt. intros H Hne.
  destruct (String.compare a b) eqn:E; trivial; try discriminate.
  now apply String.compare_eq_iff in E.
Qed.

Lemma string_leb_false (a b : string) :
  String.leb a b = false -> string_lt b a.
Proof.
  unfold String.leb, string_lt. rewrite (String.compare_antisym b a).
  destruct (String.compare a b); simpl; trivial; discriminate.
Qed.

Lemma string_lt_ltb (a b : string) :
  string_lt a b <-> String.ltb a b = true.
Proof.
  unfold string_lt, String.ltb.
  destruct (String.compare a b); split; congruence.
Qed.

Lemma insert_sorted_perm (x : string) (l : list string) :
  Permutation (FontUtils.insert_sorted x l) (x :: l).
Proof.
  induction l as [|y l IH]; simpl; trivial.
  destruct (String.leb x y); trivial.
  rewrite IH. apply perm_swap.
Qed.

Lemma sorted_perm (l : list string) : Permutation (FontUtils.sorted l) l.
Proof.
  induction l as [|x l IH]; simpl; trivial.
  rewrite insert_sorted_perm. now constructor.
Qed.

Lemma insert_sorted_strict (x : string) (l : list string) :
  StronglySorted string_lt l -> ~ In x l ->
  StronglySorted string_lt (FontUtils.insert_sorted x l).
Proof.
  induction 1 as [|y l Hl IH Hy]; intros Hx; simpl.
  - repeat constructor.
  - destruct (String.leb x y) eqn:E.
    + assert (Hxy : string_lt x y).
      { apply string_leb_lt; trivial. intros ->. apply Hx. now left. }
      constructor; [now constructor |].
      constructor; trivial.
      revert Hy. apply Forall_impl. intros z. now apply string_lt_trans.
    + apply string_leb_false in E.
      constructor.
      * apply IH. intros H. apply Hx. now right.
      * rewrite (insert_sorted_perm x l). now constructor.
Qed.

Lemma sorted_strict (l : list string) :
  NoDup l -> StronglySorted string_lt (FontUtils.sorted l).
Proof.
  induction 1 as [|x l Hx _ IH]; simpl.
  - constructor.
  - apply insert_sorted_strict; trivial.
    intros H. apply Hx.
    now apply (Permutation_in _ (sorted_perm l)).
Qed.

Lemma strict_sorted_NoDup (l : list string) :
  StronglySorted string_lt l -> NoDup l.
Proof.
  induction 1 as [|x l _ IH Hx]; constructor; trivial.
  intros Hin. rewrite Forall_forall in Hx.
  now apply (string_lt_irrefl x), Hx.
Qed.

(** A set of strings has one ascending list. *)
Lemma strict_sorted_unique (l l' : list string) :
  StronglySorted string_lt l -> StronglySorted string_lt l' ->
  (forall x, In x l <-> In x l') -> l = l'.
Proof.
  intros Hl; revert l'; induction Hl as [|x l Hl IH Hx];
    intros l' Hl' Hsame.
  - destruct l' as [|y l']; trivial.
    destruct (proj2 (Hsame y)); now left.
  - destruct Hl' as [|y l' Hl' Hy].
    + destruct (proj1 (Hsame x)); now left.
    + rewrite Forall_forall in Hx, Hy.
      assert (Hhead : x = y).
      { destruct (proj1 (Hsame x) (or_introl eq_refl)) as [E | Hxl'];
          [now symmetry |].
        destruct (proj2 (Hsame y) (or_introl eq_refl)) as [E | Hyl];
          trivial.
        elim (string_lt_irrefl x).
        apply (string_lt_trans x y x); [now apply Hx | now apply Hy]. }
      subst y. f_equal. apply IH; trivial.
      intros z. split; intros Hz.
      * destruct (proj1 (Hsame z) (or_intror Hz)) as [E | H]; trivial.
        subst z. elim (string_lt_irrefl x). now apply Hx.
      * destruct (proj2 (Hsame z) (or_intror Hz)) as [E | H]; trivial.
        subst z. elim (string_lt_irrefl x). now apply Hy.
Qed.

Lemma set_add_spec (x : string) (found : list string) :
  (NoDup found -> NoDup (FontUtils.set_add x found))
  /\ forall y, In y (FontUtils.set_add x found) <-> In y found \/ y = x.
Proof.
  unfold FontUtils.set_add.
  destruct (existsb (String.eqb x) found) eqn:E.
  - apply existsb_exists in E as (z & Hz & Ez).
    apply String.eqb_eq in Ez. subst z.
    split; trivial. intros y. split; [tauto |].
    intros [H | ->]; trivial.
  - assert (Hx : ~ In x found).
    { intros Hin. apply Bool.not_true_iff_false in E. apply E.
      apply existsb_exists. exists x. split; trivial.
      apply String.eqb_refl. }
    split.
    + intros Hnd. apply NoDup_app; trivial.
      * repeat constructor. intros [].
      * intros y Hy [<- | []]. contradiction.
    + intros y. rewrite in_app_iff. simpl. intuition.
Qed.

Lemma fold_set_add (candidates found : list string) :
  NoDup found ->
  NoDup (fold_left (fun f x => FontUtils.set_add x f) candidates found)
  /\ forall y,
       In y (fold_left (fun f x => FontUtils.set_add x f) candidates found)
       <-> In y found \/ In y candidates.
Proof.
  revert found; induction candidates as [|x candidates IH];
    intros found Hnd; simpl.
  - split; trivial. intros y. tauto.
  - destruct (set_add_spec x found) as [Hnd' Hin'].
    destruct (IH _ (Hnd' Hnd)) as [Hres Hin]. split; trivial.
    intros y. rewrite Hin, Hin'. intuition.
Qed.

Lemma fonts_below_spec (fs : FontUtils.FileSystem)
  (extensions search_dirs : list string) (p : string) :
  In p (flat_map (FontUtils.fonts_below fs extensions) search_dirs)
  <-> font_candidate fs extensions search_dirs p.
Proof.
  unfold font_candidate. rewrite in_flat_map. split.
  - intros (dir & Hdir & Hp). unfold FontUtils.fonts_below in Hp.
    destruct (FontUtils.path_exists fs dir) eqn:Ex; [| contradiction].
    cbn [negb] in Hp. apply in_flat_map in Hp as (ext & Hext & Hp).
    apply in_flat_map in Hp as (pattern & Hpat & Hp).
    apply in_map_iff in Hp as (file & Hres & Hfile).
    apply filter_In in Hfile as [Hfile Hisfile].
    exists dir, ext, pattern, file. repeat split; trivial.
  - intros (dir & ext & pattern & file & Hdir & Ex & Hext & Hpat & Hfile
            & Hisfile & Hres).
    exists dir. split; trivial. unfold FontUtils.fonts_below.
    rewrite Ex. cbn [negb]. apply in_flat_map. exists ext. split; trivial.
    apply in_flat_map. exists pattern. split; trivial.
    apply in_map_iff. exists file. split; trivial.
    apply filter_In. now split.
Qed.

Lemma find_font_files_in_spec (fs : FontUtils.FileSystem)
  (extensions search_dirs : list string) :
  StronglySorted string_lt
    (FontUtils.find_font_files_in fs extensions search_dirs)
  /\ forall p,
       In p (FontUtils.find_font_files_in fs extensions search_dirs)
       <-> font_candidate fs extensions search_dirs p.
Proof.
  unfold FontUtils.find_font_files_in.
  destruct (fold_set_add
              (flat_map (FontUtils.fonts_below fs extensions) search_dirs)
              [] (NoDup_nil _)) as [Hnd Hin].
  split.
  - now apply sorted_strict.
  - intros p. rewrite <- fonts_below_spec. split.
    + intros Hp. apply (Permutation_in _ (sorted_perm _)) in Hp.
      apply Hin in Hp as [[] | Hp]. exact Hp.
    + intros Hp. apply (Permutation_in _ (Permutation_sym (sorted_perm _))).
      apply Hin. now right.
Qed.


(** X17. [find_font_files] returns the resolved paths in strictly
    ascending order, so each of them once, and a path is returned exactly
    when it is the resolved path of a file that one of the four patterns
    matches below a directory of the list that exists; a directory that
    does not exist is passed over. *)
Theorem find_font_files_sorted_unique (fs : FontUtils.FileSystem)
  (os : FontUtils.Os) (directories : list string) :
  let fonts := FontUtils.find_font_files fs os (Some directories) in
  StronglySorted (fun a b => String.ltb a b = true) fonts
  /\ NoDup fonts
  /\ forall p,
       In p fonts
       <-> font_candidate fs FontUtils.FONT_EXTENSIONS directories p.
Proof.
  intros fonts. unfold fonts, FontUtils.find_font_files.
  destruct (find_font_files_in_spec fs FontUtils.FONT_EXTENSIONS directories)
    as [Hsorted Hin].
  split; [| split; [now apply strict_sorted_NoDup | exact Hin]].
  clear Hin. induction Hsorted as [|x l Hl IH Hx]; constructor; trivial.
  revert Hx. apply Forall_impl. intros y. apply string_lt_ltb.
Qed.

(** X18. What [find_font_files] returns depends on the sets only: the
    order of the directories, a directory given twice, and the order in
    which the set of extensions is gone through change nothing. *)
Theorem find_font_files_order (fs : FontUtils.FileSystem)
  (extensions extensions' dirs dirs' : list string) :
  (forall e, In e extensions <-> In e extensions') ->
  (forall d, In d dirs <-> In d dirs') ->
  FontUtils.find_font_files_in fs extensions dirs
  = FontUtils.find_font_files_in fs extensions' dirs'.
Proof.
  intros Hext Hdirs.
  destruct (find_font_files_in_spec fs extensions dirs) as [Hs Hin].
  destruct (find_font_files_in_spec fs extensions' dirs') as [Hs' Hin'].
  apply strict_sorted_unique; trivial.
  intros p. rewrite Hin, Hin'. unfold font_candidate.
  split; intros (dir & ext & pattern & file & Hd & Hrest);
    exists dir, ext, pattern, file;
    (split; [now apply Hdirs |]);
    destruct Hrest as (Ex & He & Hrest);
    (split; [exact Ex | split; [now apply Hext | exact Hrest]]).
Qed.

(** X19. On a platform that is neither Windows, macOS nor Linux no font
    directory is known, and [find_font_files] without directories finds
    nothing, whatever the file system holds. *)
Theorem find_font_files_unknown_platform (fs : FontUtils.FileSystem)
  (os : FontUtils.Os) :
  FontUtils.platform os <> "win32"%string ->
  FontUtils.platform os <> "darwin"%string ->
  String.prefix "linux" (FontUtils.platform os) = false ->
  FontUtils.get_system_font_dirs fs os = []
  /\ FontUtils.find_font_files fs os None = [].
Proof.
  intros Hwin Hmac Hlinux.
  assert (Hdirs : FontUtils.get_system_font_dirs fs os = []).
  { unfold FontUtils.get_system_font_dirs.
    apply String.eqb_neq in Hwin, Hmac. now rewrite Hwin, Hmac, Hlinux. }
  split; trivial.
  unfold FontUtils.find_font_files. rewrite Hdirs. reflexivity.
Qed.

Lemma process_image_detections_witness :
  let out :=
    ImageProcessor.process_image stub_imgproc two_detections
      (Some (2, 2, 3)%nat) in
  Forall (fun c => 0.6 <= ImageProcessor.confidence c) (snd out).
Proof.
  intros out.
  apply (process_image_detections stub_imgproc two_detections (2, 2, 3)%nat).
  discriminate.
Defined.

Lemma find_font_files_order_witness :
  FontUtils.find_font_files_in one_file_per_dir
    [".ttf"%string; ".otf"%string] ["/b"%string; "/a"%string]
  = FontUtils.find_font_files_in one_file_per_dir
      [".otf"%string; ".ttf"%string] ["/a"%string; "/b"%string; "/a"%string].
Proof.
  apply (find_font_files_order one_file_per_dir).
  - intros e. simpl. tauto.
  - intros d. simpl. tauto.
Defined.

Lemma find_font_files_unknown_platform_witness :
  FontUtils.find_font_files one_file_per_dir
    {| FontUtils.platform := "freebsd13";
       FontUtils.environ := fun _ => None;
       FontUtils.home := "/home/u" |} None = [].
Proof.
  apply (find_font_files_unknown_platform one_file_per_dir
           {| FontUtils.platform := "freebsd13";
              FontUtils.environ := fun _ => None;
              FontUtils.home := "/home/u" |});
    [discriminate | discriminate | reflexivity].
Defined.

(** ** The database builder *)

Lemma char_features_lengths (cv : Cv2.Contours) (render : Builder.Renderer)
  (font_path : string) (chars : list Ascii.ascii) (acc : list Np.ndarray) :
  Forall (fun v => length v = FEATURE_VECTOR_SIZE) acc ->
  Forall (fun v => length v = FEATURE_VECTOR_SIZE)
         (Builder.char_features cv render font_path chars acc).
Proof.
  unfold Builder.char_features.
  revert acc; induction chars as [|c chars IH]; intros acc Hacc;
    cbn [fold_left]; trivial.
  apply IH. unfold Builder.add_char_features.
  destruct (render font_path c Builder.FONT_SIZE) as [img|]; trivial.
  destruct (Builder.np_sum img =? 0)%Z; trivial.
  apply Forall_app. split; trivial.
  constructor; [apply extract_features_length | constructor].
Qed.

Lemma mean_axis0_length (d : nat) (v : Np.ndarray) (vs : list Np.ndarray) :
  Forall (fun u => length u = d) (v :: vs) ->
  length (Np.mean_axis0 (v :: vs)) = d.
Proof.
  intros H. inversion H as [|? ? Hv Hvs]; subst.
  unfold Np.mean_axis0, Np.sum_axis0. rewrite length_map.
  destruct (fold_add (v :: vs) (Np.zeros (length v))) as [Hl _].
  - unfold Np.zeros. rewrite repeat_length. now constructor.
  - rewrite Hl. unfold Np.zeros. apply repeat_length.
Qed.

Lemma dict_set_values {V : Type} (P : V -> Prop) (k : string) (v : V)
  (d : dict V) :
  P v -> Forall P (values d) -> Forall P (values (dict_set k v d)).
Proof.
  intros Hv. induction d as [|[k' v'] d IH]; simpl; intros H.
  - now constructor.
  - inversion H as [|? ? Hv' Hd]; subst.
    destruct (String.eqb k' k); simpl; constructor; auto.
Qed.

Lemma dict_set_In_keys {V : Type} (k : string) (v : V) (d : dict V)
  (p : string) :
  In p (keys (dict_set k v d)) <-> In p (keys d) \/ p = k.
Proof.
  rewrite dict_set_keys.
  destruct (in_dec string_dec k (keys d)) as [Hin | Hin].
  - split; [tauto |]. intros [H | ->]; trivial.
  - rewrite in_app_iff. simpl. intuition.
Qed.

Lemma dict_set_length {V : Type} (k : string) (v : V) (d : dict V) :
  (length (dict_set k v d) <= S (length d))%nat.
Proof.
  induction d as [|[k' v'] d IH]; simpl; [lia |].
  destruct (String.eqb k' k); simpl; lia.
Qed.

Lemma process_font_invariant (cv : Cv2.Contours) (render : Builder.Renderer)
  (st : Builder.progress) (done : list string) (font_path : string) :
  builder_invariant cv render st done ->
  builder_invariant cv render (Builder.process_font cv render st font_path)
    (done ++ [font_path]).
Proof.
  intros (Hvalid & Hnd & Hkeys & Hcount & Hlen).
  unfold Builder.process_font.
  pose proof (char_features_lengths cv render font_path
                (list_ascii_of_string Builder.CHARACTER_SET) []
                (Forall_nil _)) as Hfeat.
  destruct (Builder.char_features cv render font_path
              (list_ascii_of_string Builder.CHARACTER_SET) [])
    as [|f fs] eqn:E;
    unfold builder_invariant; cbn [Builder.db Builder.processed_count
                                    Builder.skipped_count].
  - split; [exact Hvalid | split; [exact Hnd | split; [| split]]].
    + intros p. rewrite Hkeys, in_app_iff. cbn [In]. split.
      * intros [Hp Hne]. tauto.
      * intros [[Hp | [<- | []]] Hne]; [tauto | congruence].
    + rewrite length_app. cbn [length]. lia.
    + exact Hlen.
  - split; [| split; [| split; [| split]]].
    + apply dict_set_values; trivial.
      now apply (mean_axis0_length FEATURE_VECTOR_SIZE).
    + now apply dict_set_NoDup.
    + intros p. rewrite dict_set_In_keys, Hkeys, in_app_iff. cbn [In]. split.
      * intros [[Hp Hne] | ->]; [tauto |].
        split; [tauto |]. rewrite E. discriminate.
      * intros [[Hp | [<- | []]] Hne]; tauto.
    + rewrite length_app. cbn [length]. lia.
    + pose proof (dict_set_length font_path (Np.mean_axis0 (f :: fs))
                    (Builder.db st)). lia.
Qed.

Lemma fold_left_cons {A B : Type} (f : A -> B -> A) (x : B) (l : list B)
  (i : A) :
  fold_left f (x :: l) i = fold_left f l (f i x).
Proof. reflexivity. Qed.

Lemma build_loop_invariant (cv : Cv2.Contours) (render : Builder.Renderer)
  (font_paths : list string) :
  builder_invariant cv render (Builder.build_loop cv render font_paths)
    font_paths.
Proof.
  unfold Builder.build_loop.
  assert (H : forall paths st done,
            builder_invariant cv render st done ->
            builder_invariant cv render
              (fold_left (Builder.process_font cv render) paths st)
              (done ++ paths)).
  { induction paths as [|p paths IH]; intros st done Hinv.
    - rewrite app_nil_r. exact Hinv.
    - rewrite fold_left_cons.
      replace (done ++ p :: paths) with ((done ++ [p]) ++ paths)
        by (rewrite <- app_assoc; reflexivity).
      apply IH. apply process_font_invariant. exact Hinv. }
  specialize (H font_paths
                {| Builder.db := [];
                   Builder.processed_count := 0;
                   Builder.skipped_count := 0 |} []).
  cbn [app] in H. apply H. clear H.
  split; [constructor | split; [constructor | split; [| split]]].
  - intros p. split; [intros [] | intros [[] _]].
  - reflexivity.
  - apply Nat.le_refl.
Qed.

Lemma build_outcome (cv : Cv2.Contours)
  (render : Builder.Renderer) (font_paths : list string)
  (can_write : bool) :
  match Builder.build_font_database cv render font_paths can_write with
  | Builder.Saved font_database =>
      can_write = true
      /\ font_database <> []
      /\ valid_database font_database
      /\ NoDup (keys font_database)
      /\ forall p, In p (keys font_database) <->
           In p font_paths
           /\ Builder.char_features cv render p
                (list_ascii_of_string Builder.CHARACTER_SET) [] <> []
  | Builder.SystemExit code =>
      code = 1%Z
      /\ (can_write = false
          \/ forall p, In p font_paths ->
               Builder.char_features cv render p
                 (list_ascii_of_string Builder.CHARACTER_SET) [] = [])
  end.
Proof.
  unfold Builder.build_font_database.
  destruct font_paths as [|p0 paths].
  - split; trivial. right. intros p [].
  - destruct (build_loop_invariant cv render (p0 :: paths))
      as (Hvalid & Hnd & Hkeys & _).
    destruct (Builder.db (Builder.build_loop cv render (p0 :: paths)))
      as [|entry db] eqn:E.
    + split; trivial. right. intros p Hp.
      destruct (Builder.char_features cv render p
                  (list_ascii_of_string Builder.CHARACTER_SET) [])
        as [|f fs] eqn:Ef; trivial.
      destruct (proj2 (Hkeys p)). split; trivial. rewrite Ef. discriminate.
    + destruct can_write.
      * repeat split; trivial; try discriminate; now apply Hkeys.
      * split; trivial. now left.
Qed.

(** X20. The database builder ends in one of two ways. It writes a
    database that is not empty, in which every vector has 7 components
    and no font comes twice, and whose fonts are exactly the fonts of the
    list of which at least one character was rendered and was not blank;
    or it exits with code 1, which happens exactly when the file cannot
    be written or no font of the list gave a feature vector. *)
Theorem build_font_database_outcome (cv : Cv2.Contours)
  (render : Builder.Renderer) (font_paths : list string)
  (can_write : bool) :
  match Builder.build_font_database cv render font_paths can_write with
  | Builder.Saved font_database =>
      can_write = true
      /\ font_database <> []
      /\ valid_database font_database
      /\ NoDup (keys font_database)
      /\ forall p, In p (keys font_database) <->
           In p font_paths
           /\ Builder.char_features cv render p
                (list_ascii_of_string Builder.CHARACTER_SET) [] <> []
  | Builder.SystemExit code =>
      code = 1%Z
      /\ (can_write = false
          \/ forall p, In p font_paths ->
               Builder.char_features cv render p
                 (list_ascii_of_string Builder.CHARACTER_SET) [] = [])
  end.
Proof. apply build_outcome. Qed.

(** X21. A database that the builder has written is one that the matcher
    can use: loaded from the file, it is the database of the matcher, and
    for the features of any non-empty list of glyphs [find_best_matches]
    returns [min(top_n, number of fonts)] pairs, without stopping at the
    dimension guard and without an error. *)
Theorem builder_to_matcher (cv cv' : Cv2.Contours)
  (render : Builder.Renderer) (font_paths : list string)
  (font_database : dict Np.ndarray) (fs : filesystem) (path : string)
  (glyphs : list (option image)) (top_n : Z) :
  Builder.build_font_database cv render font_paths true
  = Builder.Saved font_database ->
  fs path = Some (Pickle (PyDict font_database)) ->
  glyphs <> [] ->
  (0 <= top_n)%Z ->
  exists ranking,
    __init__ fs path
    = Ok {| db_path := path; font_database := font_database |}
    /\ returned
         (find_best_matches (map (extract_features cv') glyphs) top_n
            {| db_path := path; font_database := font_database |})
       = Ok ranking
    /\ length ranking = Nat.min (Z.to_nat top_n) (length font_database).
Proof.
  intros Hbuild Hfile Hglyphs Hn.
  pose proof (build_outcome cv render font_paths true) as Hout.
  rewrite Hbuild in Hout.
  destruct Hout as (_ & Hne & Hvalid & Hnd & _).
  assert (Hinit : __init__ fs path
                  = Ok {| db_path := path; font_database := font_database |}).
  { unfold __init__, _load_database. rewrite Hfile.
    now rewrite (dict_comprehension_id _ Hnd). }
  destruct (glyphs_to_ranking_aux cv' glyphs
              {| db_path := path; font_database := font_database |} top_n
              Hglyphs Hne Hvalid Hn)
    as (t & ranking & _ & _ & _ & Hret & Hlen).
  exists ranking. repeat split; assumption.
Qed.

Lemma builder_to_matcher_witness :
  exists ranking,
    __init__ (fun _ => Some (Pickle (PyDict one_font_database)))
      "font_features.pkl"
    = Ok {| db_path := "font_features.pkl";
            font_database := one_font_database |}
    /\ returned
         (find_best_matches
            (map (extract_features no_contours) [Some image_i]) 3
            {| db_path := "font_features.pkl";
               font_database := one_font_database |})
       = Ok ranking
    /\ length ranking = 1%nat.
Proof.
  apply (builder_to_matcher no_contours no_contours render_a
           ["A.ttf"%string] one_font_database
           (fun _ => Some (Pickle (PyDict one_font_database)))
           "font_features.pkl" [Some image_i] 3).
  - reflexivity.
  - reflexivity.
  - discriminate.
  - lia.
Defined.

(** X22. The configuration keeps every default key and has each key
    once: this holds of the manager that [__init__] constructs, and [set]
    preserves it, so the properties that read a default setting never
    fall back to [None] for want of the key. *)
Theorem config_keys_invariant (d : disk) (self : ConfigManager.t)
  (key : string) (value : json) :
  (match config_json d with
   | Parsed (Settings user) => NoDup (keys user)
   | _ => True
   end ->
   NoDup (keys (ConfigManager._config (fst (ConfigManager.__init__ d))))
   /\ incl (keys ConfigManager.defaults)
           (keys (ConfigManager._config (fst (ConfigManager.__init__ d)))))
  /\ (NoDup (keys (ConfigManager._config self)) ->
      incl (keys ConfigManager.defaults) (keys (ConfigManager._config self)) ->
      NoDup (keys (ConfigManager._config
                     (fst (ConfigManager.set self key value d))))
      /\ incl (keys ConfigManager.defaults)
              (keys (ConfigManager._config
                       (fst (ConfigManager.set self key value d))))).
Proof.
  split; [apply config_init_keys |].
  intros Hnd Hincl. unfold ConfigManager.set.
  cbn [fst ConfigManager._config]. split.
  - now apply dict_set_NoDup.
  - eapply incl_tran; [exact Hincl | apply dict_set_incl].
Qed.

Lemma config_keys_invariant_witness :
  incl (keys ConfigManager.defaults)
       (keys (ConfigManager._config
                (fst (ConfigManager.__init__
                        {| config_json :=
                             Parsed (Settings [("theme"%string, JStr "dark")]);
                           writable := false |}))))
  /\ incl (keys ConfigManager.defaults)
          (keys (ConfigManager._config
                   (fst (ConfigManager.set
                           {| ConfigManager._defaults := ConfigManager.defaults;
                              ConfigManager._config := ConfigManager.defaults |}
                           "theme" (JStr "dark")
                           {| config_json := NoFile; writable := false |})))).
Proof.
  destruct (config_keys_invariant
              {| config_json :=
                   Parsed (Settings [("theme"%string, JStr "dark")]);
                 writable := false |}
              {| ConfigManager._defaults := ConfigManager.defaults;
                 ConfigManager._config := ConfigManager.defaults |}
              "theme" (JStr "dark")) as [Hinit _].
  destruct (config_keys_invariant
              {| config_json := NoFile; writable := false |}
              {| ConfigManager._defaults := ConfigManager.defaults;
                 ConfigManager._config := ConfigManager.defaults |}
              "theme" (JStr "dark")) as [_ Hset].
  split.
  - apply Hinit. repeat constructor. intros [].
  - apply Hset; [apply defaults_NoDup | apply incl_refl].
Defined.
